(** * A set-associative cache simulator: model and verified properties

    Shallow embedding of [cache_sim.cpp] (class [CacheSim], the version with
    miss and write-back penalties).  Machine integers are integers of [Z]
    with the conversions of C++ written out; the four state vectors are
    lists; a call whose C++ behaviour is undefined (division by zero, an
    access outside a vector or a span) yields [None]. *)

From Stdlib Require Import ZArith Lia Bool.
From Stdlib Require Import Floats.SpecFloat.
From stdpp Require Import base list numbers.

Local Open Scope Z_scope.

(** ** Machine integers *)

(** Value of an [unsigned] (32 bits) holding [z] modulo 2^32. *)
Definition u32 (z : Z) : Z := z mod 2 ^ 32.

(** Value of a [std::uint64_t] holding [z] modulo 2^64. *)
Definition u64 (z : Z) : Z := z mod 2 ^ 64.

(** Conversion to [int] (32 bits, two's complement, modular as in C++20). *)
Definition s32 (z : Z) : Z := (z + 2 ^ 31) mod 2 ^ 32 - 2 ^ 31.

(** Value of a [std::int64_t] that is given [z]: two's complement on 64
    bits.  An addition that leaves the range is undefined in C++; the
    compiled code wraps around, and so does the model. *)
Definition s64 (z : Z) : Z := (z + 2 ^ 63) mod 2 ^ 64 - 2 ^ 63.

(** Number of bits set among the [n] low bits of [z]. *)
Fixpoint popcount_bits (n : nat) (z : Z) : Z :=
  match n with
  | O => 0
  | S n' => Z.b2z (Z.testbit z (Z.of_nat n')) + popcount_bits n' z
  end.

(** [std::__popcount] at a 32-bit operand. *)
Definition popcount (z : Z) : Z := popcount_bits 32 z.

(** ** Simulator state *)

Record CacheSim := mkCacheSim {
  (* Cache settings (unsigned) *)
  block_size : Z;
  associativity : Z;
  capacity : Z;
  miss_penalty : Z;
  dirty_wb_penalty : Z;
  (* Access settings (int) *)
  set_offset : Z;
  tag_offset : Z;
  set_mask : Z;
  (* The actual cache state: std::vector<std::uint64_t>, two
     std::vector<char> holding 0 or 1, and std::vector<int> *)
  tags : list Z;
  dirty : list bool;
  valid : list bool;
  priority : list Z;
  (* Cache statistics (std::int64_t) *)
  writes_ : Z;
  mem_accesses_ : Z;
  misses_ : Z;
  dirty_wb_ : Z;
  instructions_ : Z;
  cycles_ : Z
}.

(** ** Constructor

    The arguments are [unsigned]: values in [0, 2^32).  The two divisions
    are unsigned divisions; a zero divisor is undefined behaviour.  There is
    no other check on the geometry ("Assume this divides evenly").
    [resize] value-initialises every vector element to zero. *)
Definition CacheSim_new (bs a c mp wbp : Z) : option CacheSim :=
  if bs =? 0 then None
  else
    let num_blocks := c / bs in
    let block_bits := popcount (u32 (bs - 1)) in
    if u32 (bs * a) =? 0 then None
    else
      let sets := c / u32 (bs * a) in
      let mask := s32 (u32 (sets - 1)) in
      let set_bits := popcount (u32 mask) in
      Some {| block_size := bs;
              associativity := a;
              capacity := c;
              miss_penalty := mp;
              dirty_wb_penalty := wbp;
              set_offset := block_bits;
              tag_offset := block_bits + set_bits;
              set_mask := mask;
              tags := replicate (Z.to_nat num_blocks) 0;
              dirty := replicate (Z.to_nat num_blocks) false;
              valid := replicate (Z.to_nat num_blocks) false;
              priority := replicate (Z.to_nat num_blocks) 0;
              writes_ := 0;
              mem_accesses_ := 0;
              misses_ := 0;
              dirty_wb_ := 0;
              instructions_ := 0;
              cycles_ := 0 |}.

(** ** Address decoding *)

(** [get_set]: the shift is on a [std::uint64_t]; the [int] mask is
    converted to 64 bits unsigned for the conjunction and the result is
    returned as an [int]. *)
Definition get_set (s : CacheSim) (address : Z) : Z :=
  let shifted_address := Z.shiftr address (set_offset s) in
  s32 (Z.land shifted_address (u64 (set_mask s))).

(** [get_tag]: no mask, the tag is all the remaining upper bits. *)
Definition get_tag (s : CacheSim) (address : Z) : Z :=
  let shifted_address := Z.shiftr address (tag_offset s) in
  shifted_address.

(** ** Spans over the state vectors *)

(** [std::span{v.data() + base, n}]: the [n] elements of [v] from position
    [base]; [None] when the span leaves the vector. *)
Definition span {A} (v : list A) (base n : Z) : option (list A) :=
  if (0 <=? base) && (0 <=? n) && (base + n <=? Z.of_nat (length v))
  then Some (take (Z.to_nat n) (drop (Z.to_nat base) v))
  else None.

(** The vector [v] once the elements of the span at [base] are [l]. *)
Definition span_store {A} (v : list A) (base : Z) (l : list A) : list A :=
  take (Z.to_nat base) v ++ l ++ drop (Z.to_nat base + length l)%nat v.

(** ** The steps of [probe] *)

(** The loop over the lines of the set ([for (auto i = 0u; ...)]), on the
    lines [(valid, tag)] from slot [i] on.  The result is the slot of the
    hit ([hit = true] and [index] assigned) or [None] ([hit] stays [false]
    and [index] is unassigned), and the final [invalid_index].  An invalid
    line overwrites [invalid_index] and continues; a valid line with
    another tag continues; a valid line with the tag breaks. *)
Fixpoint scan (tag : Z) (lines : list (bool * Z)) (i invalid_index : Z)
  : option Z * Z :=
  match lines with
  | [] => (None, invalid_index)
  | (v, t) :: rest =>
      if negb v then scan tag rest (i + 1) (s32 i)
      else if negb (tag =? t) then scan tag rest (i + 1) invalid_index
      else (Some (s32 i), invalid_index)
  end.

(** [std::ranges::max_element] as a position: the first greatest element,
    found by replacing the candidate only when it is strictly less than the
    element visited; the empty range yields its end, at distance 0. *)
Fixpoint max_element_from (best : nat) (bestv : Z) (i : nat) (l : list Z) : nat :=
  match l with
  | [] => best
  | p :: rest =>
      if bestv <? p then max_element_from i p (S i) rest
      else max_element_from best bestv (S i) rest
  end.

Definition max_element (l : list Z) : nat :=
  match l with
  | [] => O
  | p :: rest => max_element_from O p 1%nat rest
  end.

(** The line to replace when the access is not a hit: an open line when
    [invalid_index] was set, else the line of greatest priority value. *)
Definition victim (invalid_index : Z) (local_priority : list Z) : Z :=
  if 0 <=? invalid_index then invalid_index
  else s32 (Z.of_nat (max_element local_priority)).

(** The lambda of [std::transform]: [cur] is the value that
    [local_priority[index]] holds when the lambda runs.  [p < associativity]
    compares an [int] with an [unsigned], in 32 bits unsigned.  The sum
    [p + 1] stays below 2^31 as long as the associativity does. *)
Definition bump (a cur p : Z) : Z :=
  if (p <=? cur) && (u32 p <? a) then p + 1 else p.

(** One iteration of [std::transform] on position [k]: input and output
    ranges are the same span, and the lambda captured [local_priority] and
    [index] by reference, so it reads the span as the earlier iterations
    left it. *)
Definition transform_step (a : Z) (index : nat) (ps : list Z) (k : nat) : list Z :=
  match ps !! k, ps !! index with
  | Some p, Some cur => <[k := bump a cur p]> ps
  | _, _ => ps
  end.

(** [std::transform] over the whole span, first to last. *)
Definition transform (a : Z) (index : nat) (ps : list Z) : list Z :=
  foldl (transform_step a index) ps (seq 0 (length ps)).

(** "Update dirty flag and priority", priority part: the transform, then
    [local_priority[index] = 0]. *)
Definition update_priority (a : Z) (index : nat) (ps : list Z) : list Z :=
  <[index := 0]> (transform a index ps).

(** [cycles += penalty] on [int cycles] and [unsigned penalty]: the sum is
    unsigned, the assignment converts it to [int]. *)
Definition add_penalty (cycles penalty : Z) : Z := s32 (u32 (cycles + penalty)).

(** "Calculate the cycles for this access". *)
Definition access_cycles (s : CacheSim) (hit dirty_wb : bool) : Z :=
  let cycles := 0 in
  let cycles := if negb hit then add_penalty cycles (miss_penalty s) else cycles in
  let cycles := if dirty_wb then add_penalty cycles (dirty_wb_penalty s) else cycles in
  cycles.

(** Lines 277-307 of [probe] on the spans of one set: [hit] and [index]
    after the scan and the choice of the line to replace. *)
Definition find_line (tag : Z) (local_valid : list bool) (local_tags local_priority : list Z)
  : bool * Z :=
  match scan tag (zip local_valid local_tags) 0 (-1) with
  | (Some index, _) => (true, index)
  | (None, invalid_index) => (false, victim invalid_index local_priority)
  end.

(** ** [probe] *)

(** The result is the tuple [(hit, dirty_wb, cycles)] and the simulator
    after the call.  [base] is [int * unsigned], an [unsigned].  The valid
    flags are read and never written. *)
Definition probe (s : CacheSim) (type : bool) (address : Z)
  : option (bool * bool * Z * CacheSim) :=
  let set := get_set s address in
  let tag := get_tag s address in
  let a := associativity s in
  let base := u32 (set * a) in
  local_tags ← span (tags s) base a;
  local_dirty ← span (dirty s) base a;
  local_valid ← span (valid s) base a;
  local_priority ← span (priority s) base a;
  let '(hit, index) := find_line tag local_valid local_tags local_priority in
  if (0 <=? index) && (index <? a) then
    let i := Z.to_nat index in
    let local_tags := if hit then local_tags else <[i := tag]> local_tags in
    let dirty_wb := if hit then false else default false (local_dirty !! i) in
    let local_dirty := <[i := type]> local_dirty in
    let local_priority := update_priority a i local_priority in
    let cycles := access_cycles s hit dirty_wb in
    Some (hit, dirty_wb, cycles,
          mkCacheSim (block_size s) (associativity s) (capacity s)
            (miss_penalty s) (dirty_wb_penalty s)
            (set_offset s) (tag_offset s) (set_mask s)
            (span_store (tags s) base local_tags)
            (span_store (dirty s) base local_dirty)
            (valid s)
            (span_store (priority s) base local_priority)
            (writes_ s) (mem_accesses_ s) (misses_ s) (dirty_wb_ s)
            (instructions_ s) (cycles_ s))
  else None.

(** ** Statistics *)

(** [update_stats]: each of the six counters is a [std::int64_t], and every
    addition is taken on 64 bits; a [bool] added to a counter counts 0 or
    1, and the [int] arguments are widened before they are added. *)
Definition update_stats (s : CacheSim) (instructions : Z) (type hit dirty_wb : bool)
    (cycles : Z) : CacheSim :=
  mkCacheSim (block_size s) (associativity s) (capacity s)
    (miss_penalty s) (dirty_wb_penalty s)
    (set_offset s) (tag_offset s) (set_mask s)
    (tags s) (dirty s) (valid s) (priority s)
    (s64 (writes_ s + Z.b2z type))
    (s64 (mem_accesses_ s + 1))
    (s64 (misses_ s + Z.b2z (negb hit)))
    (s64 (dirty_wb_ s + Z.b2z dirty_wb))
    (s64 (instructions_ s + instructions))
    (s64 (cycles_ s + cycles)).

(** One record of the trace as [parse_line] returns it: the access type
    ([true] for a write), the address and the instruction count. *)
Definition access : Type := bool * Z * Z.

(** The body of the loop of [run] for one record. *)
Definition run_access (s : CacheSim) (acc : access) : option CacheSim :=
  let '(type, address, instructions) := acc in
  '(hit, dirty_wb, cycles, s') ← probe s type address;
  Some (update_stats s' instructions type hit dirty_wb (s32 cycles)).

(** [run] over the records of the trace file, in order. *)
Fixpoint run (s : CacheSim) (trace : list access) : option CacheSim :=
  match trace with
  | [] => Some s
  | acc :: rest => s' ← run_access s acc; run s' rest
  end.

(** ** Report *)

Definition prec : Z := 53.
Definition emax : Z := 1024.

(** [(double) z] for a 64-bit integer [z]. *)
Definition to_double (z : Z) : spec_float := binary_normalize prec emax z 0 false.

(** The two derived figures that [dump_stats] prints, each computed by
    IEEE 754 binary64 operations: [MISS-RATE] and [IPC]. *)
Definition miss_rate (s : CacheSim) : spec_float :=
  SFmul prec emax
    (SFdiv prec emax (to_double (misses_ s)) (to_double (mem_accesses_ s)))
    (to_double 100).

Definition ipc (s : CacheSim) : spec_float :=
  SFdiv prec emax (to_double (instructions_ s)) (to_double (cycles_ s)).

(** The numbers of the "CACHE STATS" block in print order: accesses, reads,
    writes, miss rate, misses, hits, IPC, instructions, cycles, dirty
    write-backs. *)
Record Report := mkReport {
  r_total_accesses : Z;
  r_reads : Z;
  r_writes : Z;
  r_miss_rate : spec_float;
  r_misses : Z;
  r_hits : Z;
  r_ipc : spec_float;
  r_instructions : Z;
  r_cycles : Z;
  r_dirty_wb : Z
}.

Definition dump_stats (s : CacheSim) : Report :=
  {| r_total_accesses := mem_accesses_ s;
     r_reads := mem_accesses_ s - writes_ s;
     r_writes := writes_ s;
     r_miss_rate := miss_rate s;
     r_misses := misses_ s;
     r_hits := mem_accesses_ s - misses_ s;
     r_ipc := ipc s;
     r_instructions := instructions_ s;
     r_cycles := cycles_ s;
     r_dirty_wb := dirty_wb_ s |}.

(** ** Well-formed simulators

    [wf] holds of every simulator that [CacheSim_new] builds from a sane
    geometry, and [probe] keeps it: the sets lie within the vectors, whose
    lengths agree, the associativity is a positive [int] and the set mask a
    non-negative one. *)
Record wf (s : CacheSim) : Prop := mk_wf {
  wf_assoc : 1 <= associativity s < 2 ^ 31;
  wf_mask : 0 <= set_mask s < 2 ^ 31;
  wf_sets : (set_mask s + 1) * associativity s <= Z.of_nat (length (tags s));
  wf_length : Z.of_nat (length (tags s)) < 2 ^ 32;
  wf_dirty : length (dirty s) = length (tags s);
  wf_valid : length (valid s) = length (tags s);
  wf_priority : length (priority s) = length (tags s)
}.

(** A geometry from which the constructor builds a well-formed simulator:
    unsigned values, a non-empty line and set, a product that does not wrap,
    and at least one set. *)
Definition good_config (bs a c : Z) : Prop :=
  0 < bs /\ 0 < a < 2 ^ 31 /\ bs * a < 2 ^ 32 /\ bs * a <= c /\ c < 2 ^ 32 /\
  c / (bs * a) <= 2 ^ 31.

(** The value of [base] in [probe] for an address: the position of the first
    line of the set that the address decodes to. *)
Definition set_base (s : CacheSim) (address : Z) : Z :=
  u32 (get_set s address * associativity s).

(** The value that [std::transform] leaves at slot [j], which held [p]: the
    lambda compares [p] with [local_priority[index]] as it stands then, the
    old rank up to slot [index] and the rank that the lambda gave to slot
    [index] itself for the slots after it. *)
Definition transformed (a : Z) (index : nat) (ps : list Z) (j : nat) (p : Z) : Z :=
  let old := default 0 (ps !! index) in
  let cur := if (j <=? index)%nat then old else bump a old old in
  bump a cur p.

(** ** The priority update as the specification words it

    With [old_rank] the priority of the accessed line before any update,
    every other line whose priority is at most [old_rank] and below the
    associativity is incremented by one, every other priority is unchanged,
    and the accessed line's priority becomes 0. *)
Definition spec_update_priority (a : Z) (index : nat) (ps : list Z) : list Z :=
  let old_rank := default 0 (ps !! index) in
  imap (fun j p =>
          if decide (j = index) then 0
          else if (p <=? old_rank) && (p <? a) then p + 1
          else p) ps.



(** ** Sample simulators *)

(** A two-way cache of one set (blocks of 16 bytes, 32 bytes in all) whose
    two lines are valid, hold the tags 5 and 6 and have the ranks 0 and 1.
    The settings are those that the constructor computes for this geometry;
    the lines are given directly. *)
Definition two_way_full : CacheSim :=
  mkCacheSim 16 2 32 30 2 4 4 0
    [5; 6] [false; false] [true; true] [0; 1]
    0 0 0 0 0 0.

(** A four-way cache of one set (64 bytes in all) whose lines are valid and
    dirty, with the greatest priority value 3 in slots 1 and 2. *)
Definition four_way_full : CacheSim :=
  mkCacheSim 16 4 64 30 2 4 4 0
    [5; 6; 7; 8] [true; true; true; true] [true; true; true; true] [1; 3; 3; 0]
    0 0 0 0 0 0.


(** A four-way cache of one set with two free lines, in slots 0 and 2. *)
Definition four_way_half : CacheSim :=
  mkCacheSim 16 4 64 30 2 4 4 0
    [0; 6; 0; 8] [false; true; false; false] [false; true; false; true] [0; 0; 0; 1]
    0 0 0 0 0 0.

(** ** Figures of a trace *)

(** The number of write records of a trace. *)
Definition trace_writes (trace : list access) : Z :=
  foldr (fun acc n => Z.b2z acc.1.1 + n) 0 trace.

(** The sum of the instruction counts of a trace. *)
Definition trace_instructions (trace : list access) : Z :=
  foldr (fun acc n => acc.2 + n) 0 trace.

(** The position, in the vectors, of the last line of the set that an
    address decodes to. *)
Definition last_slot (s : CacheSim) (address : Z) : nat :=
  (Z.to_nat (set_base s address) + (Z.to_nat (associativity s) - 1))%nat.

(** The settings of a simulator, which no access changes. *)
Definition settings (s : CacheSim) : Z * Z * Z * Z * Z * Z * Z * Z :=
  (block_size s, associativity s, capacity s, miss_penalty s,
   dirty_wb_penalty s, set_offset s, tag_offset s, set_mask s).

(** The six counters of a simulator. *)
Definition counters (s : CacheSim) : Z * Z * Z * Z * Z * Z :=
  (writes_ s, mem_accesses_ s, misses_ s, dirty_wb_ s, instructions_ s, cycles_ s).

(** ** Counters within their range *)

(** The values of a [std::int64_t]. *)
Definition int64 (z : Z) : Prop := - 2 ^ 63 <= z < 2 ^ 63.

(** The four event counters are non-negative and none of them leaves the
    range of [std::int64_t] when [n] more events are counted. *)
Definition counters_fit (s : CacheSim) (n : Z) : Prop :=
  (0 <= writes_ s /\ writes_ s + n < 2 ^ 63) /\
  (0 <= mem_accesses_ s /\ mem_accesses_ s + n < 2 ^ 63) /\
  (0 <= misses_ s /\ misses_ s + n < 2 ^ 63) /\
  (0 <= dirty_wb_ s /\ dirty_wb_ s + n < 2 ^ 63).

(** The cycle counter does not leave the range of [std::int64_t] when [n]
    more accesses are charged, each with both penalties at most. *)
Definition cycles_fit (s : CacheSim) (n : Z) : Prop :=
  - 2 ^ 63 <= cycles_ s /\
  cycles_ s + (miss_penalty s + dirty_wb_penalty s) * n < 2 ^ 63.

(** ** Arithmetic of the conversions *)

Lemma u32_small z : 0 <= z < 2 ^ 32 -> u32 z = z.
Proof. intros H. unfold u32. apply Z.mod_small. exact H. Qed.

Lemma s32_small z : - 2 ^ 31 <= z < 2 ^ 31 -> s32 z = z.
Proof. intros H. unfold s32. rewrite Z.mod_small; lia. Qed.

Lemma u64_small z : 0 <= z < 2 ^ 64 -> u64 z = z.
Proof. intros H. unfold u64. apply Z.mod_small. exact H. Qed.

Lemma s32_u32 z : s32 (u32 z) = s32 z.
Proof.
  unfold s32, u32.
  rewrite Zplus_mod_idemp_l. reflexivity.
Qed.

Lemma land_mask_split x m : Z.lor (Z.land x m) (Z.land (Z.lnot x) m) = m.
Proof.
  apply Z.bits_inj'. intros n Hn.
  rewrite Z.lor_spec, !Z.land_spec, Z.lnot_spec by lia.
  destruct (Z.testbit x n), (Z.testbit m n); reflexivity.
Qed.

Lemma land_mask_disjoint x m : Z.land (Z.land x m) (Z.land (Z.lnot x) m) = 0.
Proof.
  apply Z.bits_inj'. intros n Hn.
  rewrite !Z.land_spec, Z.lnot_spec, Z.bits_0 by lia.
  destruct (Z.testbit x n), (Z.testbit m n); reflexivity.
Qed.

(** A conjunction with a non-negative mask lies between 0 and the mask. *)
Lemma land_mask_bounds x m : 0 <= m -> 0 <= Z.land x m <= m.
Proof.
  intros Hm.
  assert (H1 : 0 <= Z.land x m) by (apply Z.land_nonneg; right; exact Hm).
  assert (H2 : 0 <= Z.land (Z.lnot x) m) by (apply Z.land_nonneg; right; exact Hm).
  pose proof (Z.add_nocarry_lor _ _ (land_mask_disjoint x m)) as H3.
  rewrite land_mask_split in H3. lia.
Qed.

Lemma get_set_range s address :
  0 <= set_mask s < 2 ^ 31 -> 0 <= get_set s address <= set_mask s.
Proof.
  intros Hm. unfold get_set. cbv zeta.
  rewrite (u64_small (set_mask s)) by lia.
  pose proof (land_mask_bounds (Z.shiftr address (set_offset s)) (set_mask s)) as Hb.
  rewrite s32_small; lia.
Qed.

Lemma set_base_range s address :
  wf s ->
  set_base s address = get_set s address * associativity s /\
  0 <= set_base s address /\
  set_base s address + associativity s <= Z.of_nat (length (tags s)).
Proof.
  intros [Ha Hm Hs Hl _ _ _].
  pose proof (get_set_range s address Hm) as Hg.
  assert (Hb : get_set s address * associativity s + associativity s
               <= (set_mask s + 1) * associativity s) by nia.
  unfold set_base. rewrite u32_small by nia. nia.
Qed.

(** The sample simulators have the settings that the constructor computes
    for their geometry. *)
Lemma sample_settings :
  (exists s0, CacheSim_new 16 2 32 30 2 = Some s0 /\
     set_offset s0 = set_offset two_way_full /\
     tag_offset s0 = tag_offset two_way_full /\
     set_mask s0 = set_mask two_way_full /\
     length (tags s0) = length (tags two_way_full)) /\
  (exists s0, CacheSim_new 16 4 64 30 2 = Some s0 /\
     set_offset s0 = set_offset four_way_full /\
     tag_offset s0 = tag_offset four_way_full /\
     set_mask s0 = set_mask four_way_full /\
     length (tags s0) = length (tags four_way_full)).
Proof.
  split; eexists; (split; [reflexivity|]); repeat split; reflexivity.
Qed.

(** ** Spans *)

Lemma span_in_range {A} (v : list A) base n :
  0 <= base -> 0 <= n -> base + n <= Z.of_nat (length v) ->
  span v base n = Some (take (Z.to_nat n) (drop (Z.to_nat base) v)).
Proof.
  intros Hb Hn Hl. unfold span.
  destruct (0 <=? base) eqn:E1; [|lia].
  destruct (0 <=? n) eqn:E2; [|lia].
  destruct (base + n <=? Z.of_nat (length v)) eqn:E3; [|lia].
  reflexivity.
Qed.

Lemma span_Some_inv {A} (v l : list A) base n :
  span v base n = Some l ->
  0 <= base /\ 0 <= n /\ base + n <= Z.of_nat (length v) /\
  l = take (Z.to_nat n) (drop (Z.to_nat base) v) /\ length l = Z.to_nat n.
Proof.
  unfold span. intros H.
  destruct (0 <=? base) eqn:E1; [|discriminate].
  destruct (0 <=? n) eqn:E2; [|discriminate].
  destruct (base + n <=? Z.of_nat (length v)) eqn:E3; [|discriminate].
  simpl in H. injection H as <-.
  repeat split; try lia.
  rewrite length_take, length_drop. lia.
Qed.

Lemma span_lookup {A} (v l : list A) base n (i : nat) :
  span v base n = Some l -> (i < length l)%nat ->
  l !! i = v !! (Z.to_nat base + i)%nat.
Proof.
  intros H Hi. apply span_Some_inv in H as (Hb & Hn & Hl & -> & Hlen).
  rewrite Hlen in Hi.
  rewrite lookup_take_lt by lia. rewrite lookup_drop. reflexivity.
Qed.

Lemma span_store_length {A} (v l : list A) base :
  (Z.to_nat base + length l <= length v)%nat ->
  length (span_store v base l) = length v.
Proof.
  intros H. unfold span_store.
  rewrite !length_app, length_take, length_drop. lia.
Qed.

Lemma span_store_same {A} (v : list A) base n :
  span_store v base (take n (drop (Z.to_nat base) v)) = v.
Proof.
  unfold span_store.
  rewrite length_take, length_drop.
  assert (E : drop (Z.to_nat base + n `min` (length v - Z.to_nat base))%nat v
              = drop n (drop (Z.to_nat base) v)).
  { rewrite drop_drop.
    destruct (decide (n <= length v - Z.to_nat base)%nat) as [Hle|Hgt].
    - f_equal. lia.
    - rewrite !drop_ge by lia. reflexivity. }
  rewrite E, take_drop, take_drop. reflexivity.
Qed.

Lemma span_store_insert {A} (v l : list A) base (i : nat) x :
  (i < length l)%nat -> (Z.to_nat base <= length v)%nat ->
  span_store v base (<[i := x]> l) = <[(Z.to_nat base + i)%nat := x]> (span_store v base l).
Proof.
  intros Hi Hb. unfold span_store.
  rewrite length_insert.
  rewrite insert_app_r_alt by (rewrite length_take; lia).
  rewrite length_take.
  replace (Z.to_nat base + i - Z.to_nat base `min` length v)%nat with i by lia.
  f_equal. rewrite insert_app_l by lia. reflexivity.
Qed.

Lemma span_store_span {A} (v l : list A) base :
  0 <= base -> (Z.to_nat base + length l <= length v)%nat ->
  span (span_store v base l) base (Z.of_nat (length l)) = Some l.
Proof.
  intros Hb Hl.
  rewrite span_in_range by (rewrite ?span_store_length; lia).
  f_equal. unfold span_store.
  rewrite drop_app_length' by (rewrite length_take; lia).
  rewrite Nat2Z.id. rewrite take_app_length. reflexivity.
Qed.

(** ** The scan of a set *)

(** What the loop returns, for slots that fit an [int]: on a hit, the first
    valid line with the tag; on a miss no valid line has the tag, and
    [invalid_index] is the last invalid slot or, without one, unchanged. *)
Lemma scan_spec tag lines : forall i inv,
  0 <= i -> i + Z.of_nat (length lines) <= 2 ^ 31 ->
  match scan tag lines i inv with
  | (Some index, _) =>
      exists k : nat, index = i + Z.of_nat k /\ lines !! k = Some (true, tag) /\
        forall (j : nat) v t, (j < k)%nat -> lines !! j = Some (v, t) ->
          v = false \/ t <> tag
  | (None, inv') =>
      (forall (k : nat) v t, lines !! k = Some (v, t) -> v = false \/ t <> tag) /\
      ((inv' = inv /\ forall (k : nat) v t, lines !! k = Some (v, t) -> v = true) \/
       (exists (k : nat) t, inv' = i + Z.of_nat k /\ lines !! k = Some (false, t) /\
          forall (j : nat) v t', (k < j)%nat -> lines !! j = Some (v, t') -> v = true))
  end.
Proof.
  induction lines as [|[v t] rest IH]; intros i inv Hi Hlen; simpl.
  - split; [intros k v t Hk; rewrite lookup_nil in Hk; discriminate|].
    left. split; [reflexivity|]. intros k v t Hk. rewrite lookup_nil in Hk. discriminate.
  - simpl in Hlen.
    assert (Hs : s32 i = i) by (apply s32_small; lia).
    destruct v; simpl.
    + destruct (tag =? t) eqn:Et; simpl.
      * apply Z.eqb_eq in Et. subst t.
        exists O. rewrite Hs. split; [lia|]. split; [reflexivity|].
        intros j v t Hj. lia.
      * apply Z.eqb_neq in Et.
        specialize (IH (i + 1) inv ltac:(lia) ltac:(lia)).
        destruct (scan tag rest (i + 1) inv) as [[index|] inv'].
        -- destruct IH as (k & -> & Hk & Hfirst).
           exists (S k). split; [lia|]. split; [exact Hk|].
           intros [|j] v t' Hj Hl; simpl in Hl.
           ++ injection Hl as <- <-. right. congruence.
           ++ apply (Hfirst j); [lia|exact Hl].
        -- destruct IH as (Hnone & Hinv). split.
           ++ intros [|k] v t' Hl; simpl in Hl.
              ** injection Hl as <- <-. right. congruence.
              ** apply (Hnone k). exact Hl.
           ++ destruct Hinv as [[-> Hall]|(k & t' & -> & Hk & Hlast)].
              ** left. split; [reflexivity|].
                 intros [|k] v t' Hl; simpl in Hl; [congruence|].
                 apply (Hall k _ _ Hl).
              ** right. exists (S k), t'. split; [lia|]. split; [exact Hk|].
                 intros [|j] v t'' Hj Hl; simpl in Hl; [lia|].
                 apply (Hlast j v t''); [lia|exact Hl].
    + specialize (IH (i + 1) (s32 i) ltac:(lia) ltac:(lia)).
      destruct (scan tag rest (i + 1) (s32 i)) as [[index|] inv'].
      * destruct IH as (k & -> & Hk & Hfirst).
        exists (S k). split; [lia|]. split; [exact Hk|].
        intros [|j] v t' Hj Hl; simpl in Hl.
        -- injection Hl as <- <-. left. reflexivity.
        -- apply (Hfirst j); [lia|exact Hl].
      * destruct IH as (Hnone & Hinv). split.
        -- intros [|k] v t' Hl; simpl in Hl.
           ++ injection Hl as <- <-. left. reflexivity.
           ++ apply (Hnone k). exact Hl.
        -- right. destruct Hinv as [[-> Hall]|(k & t' & -> & Hk & Hlast)].
           ++ exists O, t. rewrite Hs. split; [lia|]. split; [reflexivity|].
              intros [|j] v t' Hj Hl; simpl in Hl; [lia|].
              apply (Hall j _ _ Hl).
           ++ exists (S k), t'. split; [lia|]. split; [exact Hk|].
              intros [|j] v t'' Hj Hl; simpl in Hl; [lia|].
              apply (Hlast j v t''); [lia|exact Hl].
Qed.

(** ** The first maximum *)

Lemma max_element_from_spec l : forall best bestv i,
  let m := max_element_from best bestv i l in
  (m = best /\ forall (j : nat) q, l !! j = Some q -> q <= bestv) \/
  (exists (k : nat) p, m = (i + k)%nat /\ l !! k = Some p /\ bestv < p /\
     (forall (j : nat) q, l !! j = Some q -> q <= p) /\
     (forall (j : nat) q, (j < k)%nat -> l !! j = Some q -> q < p)).
Proof.
  induction l as [|p rest IH]; intros best bestv i; simpl.
  - left. split; [reflexivity|]. intros j q Hj. rewrite lookup_nil in Hj. discriminate.
  - destruct (bestv <? p) eqn:E.
    + apply Z.ltb_lt in E. right.
      destruct (IH i p (S i)) as [[Hm Hall]|(k & p' & Hm & Hk & Hlt & Hall & Hfirst)].
      * exists O, p. rewrite Hm. split; [lia|]. split; [reflexivity|]. split; [exact E|].
        split.
        -- intros [|j] q Hj; simpl in Hj; [injection Hj as <-; lia|].
           apply (Hall j q Hj).
        -- intros j q Hj. lia.
      * exists (S k), p'. rewrite Hm. split; [lia|]. split; [exact Hk|]. split; [lia|].
        split.
        -- intros [|j] q Hj; simpl in Hj; [injection Hj as <-; lia|].
           apply (Hall j q Hj).
        -- intros [|j] q Hj Hl; simpl in Hl; [injection Hl as <-; lia|].
           apply (Hfirst j q); [lia|exact Hl].
    + apply Z.ltb_ge in E.
      destruct (IH best bestv (S i)) as [[Hm Hall]|(k & p' & Hm & Hk & Hlt & Hall & Hfirst)].
      * left. split; [exact Hm|].
        intros [|j] q Hj; simpl in Hj; [injection Hj as <-; lia|].
        apply (Hall j q Hj).
      * right. exists (S k), p'. rewrite Hm. split; [lia|]. split; [exact Hk|].
        split; [exact Hlt|]. split.
        -- intros [|j] q Hj; simpl in Hj; [injection Hj as <-; lia|].
           apply (Hall j q Hj).
        -- intros [|j] q Hj Hl; simpl in Hl; [injection Hl as <-; lia|].
           apply (Hfirst j q); [lia|exact Hl].
Qed.

(** [max_element] is the position of the first greatest element. *)
Lemma max_element_spec l :
  l <> [] ->
  exists p, l !! max_element l = Some p /\
    (forall (j : nat) q, l !! j = Some q -> q <= p) /\
    (forall (j : nat) q, (j < max_element l)%nat -> l !! j = Some q -> q < p).
Proof.
  destruct l as [|p0 rest]; [congruence|]. intros _. unfold max_element.
  destruct (max_element_from_spec rest O p0 1%nat)
    as [[Hm Hall]|(k & p & Hm & Hk & Hlt & Hall & Hfirst)]; rewrite Hm.
  - exists p0. split; [reflexivity|]. split.
    + intros [|j] q Hj; simpl in Hj; [injection Hj as <-; lia|]. apply (Hall j q Hj).
    + intros j q Hj. lia.
  - exists p. split; [exact Hk|]. split.
    + intros [|j] q Hj; simpl in Hj; [injection Hj as <-; lia|]. apply (Hall j q Hj).
    + intros [|j] q Hj Hl; simpl in Hl; [injection Hl as <-; lia|].
      apply (Hfirst j q); [lia|exact Hl].
Qed.

(** ** The line that [probe] works on *)

Lemma zip_lookup_Some {A B} (l : list A) (k : list B) (i : nat) x y :
  zip l k !! i = Some (x, y) <-> l !! i = Some x /\ k !! i = Some y.
Proof.
  unfold zip. split.
  - intros H. apply lookup_zip_with_Some in H as (x' & y' & E & Hx & Hy).
    injection E as -> ->. split; assumption.
  - intros [Hx Hy]. apply lookup_zip_with_Some. exists x, y. repeat split; assumption.
Qed.

Lemma zip_lookup_lt {A B} (l : list A) (k : list B) (i : nat) :
  length k = length l -> (i < length l)%nat ->
  exists x y, l !! i = Some x /\ k !! i = Some y /\ zip l k !! i = Some (x, y).
Proof.
  intros Hlen Hi.
  destruct (lookup_lt_is_Some_2 l i Hi) as [x Hx].
  destruct (lookup_lt_is_Some_2 k i ltac:(lia)) as [y Hy].
  exists x, y. split; [exact Hx|]. split; [exact Hy|].
  apply zip_lookup_Some. split; assumption.
Qed.

(** [hit] and [index] for a set of at least one line whose spans agree in
    length: [index] is a slot of the set; a hit is the first valid line
    holding the tag; a miss takes the last invalid line when there is one
    and the first line of greatest priority value when the set is full. *)
Lemma find_line_spec tag vs ts ps :
  length ts = length vs -> length ps = length vs ->
  (0 < length vs)%nat -> Z.of_nat (length vs) < 2 ^ 31 ->
  exists hit (i : nat),
    find_line tag vs ts ps = (hit, Z.of_nat i) /\ (i < length vs)%nat /\
    (hit = true ->
       vs !! i = Some true /\ ts !! i = Some tag /\
       forall j : nat, (j < i)%nat -> vs !! j = Some true -> ts !! j <> Some tag) /\
    (hit = false ->
       (forall k : nat, vs !! k = Some true -> ts !! k <> Some tag) /\
       ((exists k : nat, vs !! k = Some false) ->
          vs !! i = Some false /\
          forall j : nat, (i < j)%nat -> (j < length vs)%nat -> vs !! j = Some true) /\
       ((forall k : nat, (k < length vs)%nat -> vs !! k = Some true) ->
          i = max_element ps)).
Proof.
  intros Hts Hps Hpos Hlen.
  assert (Hzl : length (zip vs ts) = length vs)
    by (rewrite length_zip; lia).
  pose proof (scan_spec tag (zip vs ts) 0 (-1) ltac:(lia) ltac:(lia)) as Hscan.
  unfold find_line.
  destruct (scan tag (zip vs ts) 0 (-1)) as [[index|] inv'].
  - destruct Hscan as (k & -> & Hk & Hfirst).
    apply zip_lookup_Some in Hk as [Hv Ht].
    exists true, k. split; [f_equal; lia|].
    split; [apply lookup_lt_Some in Hv; exact Hv|].
    split; [|discriminate].
    intros _. split; [exact Hv|]. split; [exact Ht|].
    intros j Hj Hvj Htj.
    destruct (Hfirst j true tag Hj) as [E|E]; [|discriminate|congruence].
    apply zip_lookup_Some. split; assumption.
  - destruct Hscan as (Hnone & Hinv).
    assert (Hmiss : forall k : nat, vs !! k = Some true -> ts !! k <> Some tag).
    { intros k Hv Ht.
      destruct (Hnone k true tag) as [E|E]; [|discriminate|congruence].
      apply zip_lookup_Some. split; assumption. }
    destruct Hinv as [[-> Hall]|(k & t & -> & Hk & Hlast)].
    + assert (Hfull : forall k : nat, (k < length vs)%nat -> vs !! k = Some true).
      { intros k Hk.
        destruct (zip_lookup_lt vs ts k Hts Hk) as (v & t & Hv & Ht & Hz).
        rewrite Hv. f_equal. apply (Hall k v t Hz). }
      assert (Hne : ps <> []) by (destruct ps; simpl in *; [lia|congruence]).
      destruct (max_element_spec ps Hne) as (p & Hp & _).
      apply lookup_lt_Some in Hp.
      exists false, (max_element ps). unfold victim. simpl.
      split; [f_equal; apply s32_small; lia|].
      split; [lia|]. split; [discriminate|]. intros _.
      split; [exact Hmiss|]. split; [|reflexivity].
      intros [k Hk]. pose proof (lookup_lt_Some _ _ _ Hk) as Hlt.
      rewrite (Hfull k Hlt) in Hk. discriminate.
    + apply zip_lookup_Some in Hk as [Hv Ht].
      pose proof (lookup_lt_Some _ _ _ Hv) as Hlt.
      exists false, k. unfold victim.
      replace (0 <=? 0 + Z.of_nat k) with true by (symmetry; apply Z.leb_le; lia).
      split; [f_equal|].
      split; [exact Hlt|]. split; [discriminate|]. intros _.
      split; [exact Hmiss|]. split.
      * intros _. split; [exact Hv|].
        intros j Hj Hjl.
        destruct (zip_lookup_lt vs ts j Hts Hjl) as (v & t' & Hvj & Htj & Hz).
        rewrite Hvj. f_equal. apply (Hlast j v t' Hj Hz).
      * intros Hfull. rewrite (Hfull k Hlt) in Hv. discriminate.
Qed.

(** ** The priority update *)

Lemma transform_prefix a index ps old :
  ps !! index = Some old ->
  forall n : nat, (n <= length ps)%nat ->
    length (foldl (transform_step a index) ps (seq 0 n)) = length ps /\
    forall (j : nat) p, ps !! j = Some p ->
      foldl (transform_step a index) ps (seq 0 n) !! j =
      Some (if (j <? n)%nat then transformed a index ps j p else p).
Proof.
  intros Hold. induction n as [|n IH]; intros Hn.
  - simpl. split; [reflexivity|]. intros j p Hj. exact Hj.
  - destruct (IH ltac:(lia)) as [Hlen Hlook].
    rewrite seq_S, foldl_app. simpl.
    set (qs := foldl (transform_step a index) ps (seq 0 n)) in *.
    destruct (lookup_lt_is_Some_2 ps n ltac:(lia)) as [pn Hpn].
    assert (Hqn : qs !! n = Some pn).
    { rewrite (Hlook n pn Hpn). rewrite (proj2 (Nat.ltb_ge n n)) by lia. reflexivity. }
    assert (Hqi : qs !! index =
                  Some (if (index <? n)%nat then transformed a index ps index old else old))
      by (apply Hlook; exact Hold).
    unfold transform_step. rewrite Hqn, Hqi.
    split; [rewrite length_insert; exact Hlen|].
    intros j p Hj.
    destruct (decide (j = n)) as [->|Hne].
    + rewrite list_lookup_insert_eq by lia.
      rewrite (proj2 (Nat.ltb_lt n (S n))) by lia.
      rewrite Hpn in Hj. injection Hj as ->.
      f_equal. unfold transformed. rewrite Hold. simpl.
      destruct (index <? n)%nat eqn:E1; destruct (n <=? index)%nat eqn:E2;
        try reflexivity.
      * apply Nat.ltb_lt in E1. apply Nat.leb_le in E2. lia.
      * rewrite (proj2 (Nat.leb_le index index)) by lia. reflexivity.
      * apply Nat.ltb_ge in E1. apply Nat.leb_gt in E2. lia.
    + rewrite list_lookup_insert_ne by lia.
      rewrite (Hlook j p Hj).
      destruct (j <? n)%nat eqn:E1; destruct (j <? S n)%nat eqn:E2; try reflexivity.
      * apply Nat.ltb_lt in E1. apply Nat.ltb_ge in E2. lia.
      * apply Nat.ltb_ge in E1. apply Nat.ltb_lt in E2. lia.
Qed.

(** The in-place transform in closed form. *)
Lemma transform_lookup a index ps old (j : nat) p :
  ps !! index = Some old -> ps !! j = Some p ->
  transform a index ps !! j = Some (transformed a index ps j p).
Proof.
  intros Hold Hj. unfold transform.
  destruct (transform_prefix a index ps old Hold (length ps) ltac:(lia)) as [_ H].
  rewrite (H j p Hj).
  apply lookup_lt_Some in Hj.
  rewrite (proj2 (Nat.ltb_lt j (length ps))) by lia. reflexivity.
Qed.

Lemma transform_length a index ps : length (transform a index ps) = length ps.
Proof.
  unfold transform.
  destruct (ps !! index) as [old|] eqn:Hold.
  - apply (transform_prefix a index ps old Hold (length ps)). lia.
  - assert (H : forall l qs, foldl (transform_step a index) qs l = qs \/ qs !! index <> None).
    { induction l as [|k l IHl]; intros qs; simpl; [left; reflexivity|].
      destruct (qs !! index) eqn:E; [right; congruence|].
      unfold transform_step at 2. rewrite E.
      destruct (qs !! k); destruct (IHl qs) as [->|Hc]; try (left; reflexivity);
        congruence. }
    destruct (H (seq 0 (length ps)) ps) as [->|Hc]; [reflexivity|congruence].
Qed.

Lemma update_priority_length a index ps :
  length (update_priority a index ps) = length ps.
Proof. unfold update_priority. rewrite length_insert. apply transform_length. Qed.

(** ** [probe] on a well-formed simulator *)

(** The spans of the set that an address decodes to. *)
Lemma wf_spans s address :
  wf s ->
  let a := associativity s in
  let base := set_base s address in
  let n := Z.to_nat a in
  let b := Z.to_nat base in
  span (tags s) base a = Some (take n (drop b (tags s))) /\
  span (dirty s) base a = Some (take n (drop b (dirty s))) /\
  span (valid s) base a = Some (take n (drop b (valid s))) /\
  span (priority s) base a = Some (take n (drop b (priority s))) /\
  (b + n <= length (tags s))%nat /\ (0 < n)%nat /\ Z.of_nat n < 2 ^ 31.
Proof.
  intros Hwf. pose proof (set_base_range s address Hwf) as (_ & Hb0 & Hb).
  destruct Hwf as [Ha Hm Hs Hl Hd Hv Hp]. cbv zeta.
  repeat split; try (apply span_in_range; lia); lia.
Qed.

(** [probe] returns on every well-formed simulator, for every access: the
    result and the simulator after the call, field by field.  [i] is the
    line found by [find_line] in the set. *)
Lemma probe_wf s type address :
  wf s ->
  let a := associativity s in
  let n := Z.to_nat a in
  let b := Z.to_nat (set_base s address) in
  let tag := get_tag s address in
  let vs := take n (drop b (valid s)) in
  let ts := take n (drop b (tags s)) in
  let ps := take n (drop b (priority s)) in
  exists hit (i : nat),
    find_line tag vs ts ps = (hit, Z.of_nat i) /\ (i < n)%nat /\
    let dirty_wb := if hit then false else default false (dirty s !! (b + i)%nat) in
    probe s type address =
    Some (hit, dirty_wb, access_cycles s hit dirty_wb,
          mkCacheSim (block_size s) (associativity s) (capacity s)
            (miss_penalty s) (dirty_wb_penalty s)
            (set_offset s) (tag_offset s) (set_mask s)
            (if hit then tags s else <[(b + i)%nat := tag]> (tags s))
            (<[(b + i)%nat := type]> (dirty s))
            (valid s)
            (span_store (priority s) (set_base s address) (update_priority a i ps))
            (writes_ s) (mem_accesses_ s) (misses_ s) (dirty_wb_ s)
            (instructions_ s) (cycles_ s)).
Proof.
  intros Hwf. cbv zeta.
  pose proof (wf_spans s address Hwf) as (Ht & Hd & Hv & Hp & Hb & Hn & Hn31).
  cbv zeta in Ht, Hd, Hv, Hp, Hb, Hn, Hn31.
  pose proof (set_base_range s address Hwf) as (_ & Hb0 & _).
  destruct Hwf as [Ha Hm Hs Hl Hdl Hvl Hpl].
  set (n := Z.to_nat (associativity s)) in *.
  set (b := Z.to_nat (set_base s address)) in *.
  set (vs := take n (drop b (valid s))).
  set (ts := take n (drop b (tags s))).
  set (ps := take n (drop b (priority s))).
  set (ds := take n (drop b (dirty s))).
  assert (Hlv : length vs = n) by (unfold vs; rewrite length_take, length_drop; lia).
  assert (Hlt : length ts = n) by (unfold ts; rewrite length_take, length_drop; lia).
  assert (Hlp : length ps = n) by (unfold ps; rewrite length_take, length_drop; lia).
  assert (Hld : length ds = n) by (unfold ds; rewrite length_take, length_drop; lia).
  destruct (find_line_spec (get_tag s address) vs ts ps)
    as (hit & i & Hfind & Hi & _); try lia.
  exists hit, i. split; [exact Hfind|]. split; [lia|].
  unfold probe. fold (set_base s address).
  rewrite Ht, Hd, Hv, Hp. simpl.
  fold n b vs ts ps ds. rewrite Hfind.
  replace ((0 <=? Z.of_nat i) && (Z.of_nat i <? associativity s)) with true
    by (symmetry; apply andb_true_iff; split; [apply Z.leb_le|apply Z.ltb_lt]; lia).
  rewrite Nat2Z.id.
  assert (Hdi : ds !! i = dirty s !! (b + i)%nat).
  { unfold ds. rewrite lookup_take_lt by lia. apply lookup_drop. }
  rewrite Hdi. do 2 f_equal. f_equal.
  - destruct hit.
    + unfold ts, b. apply span_store_same.
    + rewrite span_store_insert by (fold b; lia).
      fold b. f_equal. unfold ts, b. apply span_store_same.
  - rewrite span_store_insert by (fold b; lia).
    fold b. f_equal. unfold ds, b. apply span_store_same.
Qed.

Lemma probe_preserves_wf s type address r s' :
  wf s -> probe s type address = Some (r, s') -> wf s'.
Proof.
  intros Hwf Hp.
  destruct (probe_wf s type address Hwf) as (hit & i & _ & Hi & E).
  cbv zeta in E. rewrite E in Hp. injection Hp as _ <-.
  pose proof (wf_spans s address Hwf) as (_ & _ & _ & _ & Hb & Hn & _).
  cbv zeta in Hb, Hn.
  destruct Hwf as [Ha Hm Hs Hl Hdl Hvl Hpl].
  assert (Hlt : length (if hit then tags s
                        else <[(Z.to_nat (set_base s address) + i)%nat := get_tag s address]>
                               (tags s)) = length (tags s))
    by (destruct hit; [reflexivity|apply length_insert]).
  constructor; simpl; rewrite ?Hlt; try assumption.
  - rewrite length_insert. exact Hdl.
  - rewrite span_store_length.
    + exact Hpl.
    + rewrite update_priority_length, length_take, length_drop. lia.
Qed.

(** A call of [probe] that returns, on any simulator: the four spans are
    in range, [find_line] gave a slot of the set, the cycles are those of
    the outcome and the valid flags are as before. *)
Lemma probe_Some_inv s type address hit dirty_wb cycles s' :
  probe s type address = Some (hit, dirty_wb, cycles, s') ->
  exists ts vs ps index,
    span (tags s) (set_base s address) (associativity s) = Some ts /\
    span (valid s) (set_base s address) (associativity s) = Some vs /\
    span (priority s) (set_base s address) (associativity s) = Some ps /\
    find_line (get_tag s address) vs ts ps = (hit, index) /\
    0 <= index < associativity s /\
    cycles = access_cycles s hit dirty_wb /\
    valid s' = valid s.
Proof.
  unfold probe. fold (set_base s address). intros H.
  destruct (span (tags s) _ _) as [ts|]; [|discriminate]. simpl in H.
  destruct (span (dirty s) _ _) as [ds|]; [|discriminate]. simpl in H.
  destruct (span (valid s) _ _) as [vs|]; [|discriminate]. simpl in H.
  destruct (span (priority s) _ _) as [ps|]; [|discriminate]. simpl in H.
  destruct (find_line _ _ _ _) as [hit0 index] eqn:Hfind.
  destruct ((0 <=? index) && (index <? associativity s)) eqn:E; [|discriminate].
  apply andb_true_iff in E as [E1 E2].
  apply Z.leb_le in E1. apply Z.ltb_lt in E2.
  injection H as <- <- <- <-.
  exists ts, vs, ps, index. repeat split; try reflexivity; assumption.
Qed.

(** [probe] never writes the valid flags, whatever the simulator. *)
Lemma probe_valid s type address r s' :
  probe s type address = Some (r, s') -> valid s' = valid s.
Proof.
  destruct r as [[hit dirty_wb] cycles]. intros H.
  apply probe_Some_inv in H as (ts & vs & ps & index & _ & _ & _ & _ & _ & _ & Hv).
  exact Hv.
Qed.

(** The constructor returns a well-formed simulator with every line invalid
    on every good geometry. *)
Lemma CacheSim_new_wf bs a c mp wbp :
  good_config bs a c ->
  exists s, CacheSim_new bs a c mp wbp = Some s /\ wf s /\
    valid s = replicate (Z.to_nat (c / bs)) false /\
    associativity s = a /\ miss_penalty s = mp /\ dirty_wb_penalty s = wbp.
Proof.
  intros (Hbs & Ha & Hprod & Hc & Hc32 & Hsets).
  unfold CacheSim_new.
  destruct (bs =? 0) eqn:E0; [apply Z.eqb_eq in E0; lia|].
  rewrite (u32_small (bs * a)) by nia.
  destruct (bs * a =? 0) eqn:E1; [apply Z.eqb_eq in E1; nia|].
  assert (H1 : 1 <= c / (bs * a)).
  { apply Z.div_le_lower_bound; nia. }
  assert (Hmask : s32 (u32 (c / (bs * a) - 1)) = c / (bs * a) - 1).
  { rewrite s32_u32. apply s32_small. lia. }
  assert (Hdiv : c / (bs * a) * a <= c / bs).
  { rewrite <- Z.div_div by lia.
    pose proof (Z.mul_div_le (c / bs) a ltac:(lia)). lia. }
  assert (Hcb : 0 <= c / bs <= c).
  { split; [apply Z.div_pos; lia|].
    apply Z.div_le_upper_bound; nia. }
  eexists. split; [reflexivity|].
  split; [|repeat split; reflexivity].
  constructor; simpl; rewrite ?Hmask, ?length_replicate; try lia.
Qed.

(** ** A cache whose lines are all invalid *)

(** On invalid lines the loop only records slots: it returns no hit without
    looking at a tag. *)
Lemma scan_invalid_lines tag lines : forall i inv,
  (forall (k : nat) v t, lines !! k = Some (v, t) -> v = false) ->
  fst (scan tag lines i inv) = None.
Proof.
  induction lines as [|[v t] rest IH]; intros i inv Hall; simpl; [reflexivity|].
  rewrite (Hall O v t eq_refl). simpl.
  apply IH. intros k v' t' Hk. apply (Hall (S k) v' t'). exact Hk.
Qed.

Lemma scan_invalid_set tag vs ts :
  Forall (eq false) vs -> fst (scan tag (zip vs ts) 0 (-1)) = None.
Proof.
  intros Hall. apply scan_invalid_lines.
  intros k v t Hk. apply zip_lookup_Some in Hk as [Hv _].
  rewrite Forall_forall in Hall. symmetry. apply Hall.
  apply list_elem_of_In. apply list_elem_of_lookup. exists k. exact Hv.
Qed.

Lemma Forall_span {A} (P : A -> Prop) (v l : list A) base n :
  Forall P v -> span v base n = Some l -> Forall P l.
Proof.
  intros Hv Hs. apply span_Some_inv in Hs as (_ & _ & _ & -> & _).
  apply Forall_take, Forall_drop, Hv.
Qed.

(** With every line invalid, [probe] is a miss that leaves every line
    invalid. *)
Lemma probe_cold s type address :
  wf s -> Forall (eq false) (valid s) ->
  exists dirty_wb s',
    probe s type address = Some (false, dirty_wb, access_cycles s false dirty_wb, s') /\
    wf s' /\ valid s' = valid s.
Proof.
  intros Hwf Hcold.
  destruct (probe_wf s type address Hwf) as (hit & i & Hfind & Hi & E).
  cbv zeta in E.
  assert (Hhit : hit = false).
  { unfold find_line in Hfind.
    pose proof (scan_invalid_set (get_tag s address)
      (take (Z.to_nat (associativity s)) (drop (Z.to_nat (set_base s address)) (valid s)))
      (take (Z.to_nat (associativity s)) (drop (Z.to_nat (set_base s address)) (tags s)))
      ltac:(apply Forall_take, Forall_drop, Hcold)) as Hscan.
    destruct (scan _ _ _ _) as [[index|] inv']; simpl in Hscan; [discriminate|].
    injection Hfind as <- _. reflexivity. }
  subst hit. eexists. eexists. split; [exact E|].
  split; [|reflexivity].
  eapply probe_preserves_wf; [exact Hwf|exact E].
Qed.

Lemma update_stats_wf s instructions type hit dirty_wb cycles :
  wf s -> wf (update_stats s instructions type hit dirty_wb cycles).
Proof. intros [? ? ? ? ? ? ?]. constructor; simpl; assumption. Qed.

(** [run] goes through any trace on such a cache, and leaves it such. *)
Lemma run_cold trace : forall s,
  wf s -> Forall (eq false) (valid s) ->
  exists s', run s trace = Some s' /\ wf s' /\ valid s' = valid s.
Proof.
  induction trace as [|[[type address] instructions] rest IH]; intros s Hwf Hcold; simpl.
  - exists s. split; [reflexivity|]. split; [exact Hwf|reflexivity].
  - destruct (probe_cold s type address Hwf Hcold) as (dw & s1 & E & Hwf1 & Hv1).
    rewrite E. simpl.
    set (s2 := update_stats s1 instructions type false dw _).
    assert (Hwf2 : wf s2) by (apply update_stats_wf; exact Hwf1).
    assert (Hv2 : valid s2 = valid s) by (simpl; exact Hv1).
    destruct (IH s2 Hwf2 ltac:(rewrite Hv2; exact Hcold)) as (s' & Hrun & Hwf' & Hv').
    exists s'. split; [exact Hrun|]. split; [exact Hwf'|]. congruence.
Qed.

(** Without any assumption on the simulator: a probe that returns on a
    cache whose lines are all invalid is a miss. *)
Lemma probe_invalid_miss s type address hit dirty_wb cycles s' :
  Forall (eq false) (valid s) ->
  probe s type address = Some (hit, dirty_wb, cycles, s') -> hit = false.
Proof.
  intros Hcold H.
  apply probe_Some_inv in H as (ts & vs & ps & index & _ & Hvs & _ & Hfind & _).
  pose proof (scan_invalid_set (get_tag s address) vs ts
                (Forall_span _ _ _ _ _ Hcold Hvs)) as Hscan.
  unfold find_line in Hfind.
  destruct (scan _ _ _ _) as [[i|] inv']; simpl in Hscan; [discriminate|].
  injection Hfind as <- _. reflexivity.
Qed.

Lemma run_valid trace : forall s s', run s trace = Some s' -> valid s' = valid s.
Proof.
  induction trace as [|[[type address] instructions] rest IH]; intros s s' H; simpl in H.
  - injection H as <-. reflexivity.
  - destruct (probe s type address) as [[[[hit dw] cyc] s1]|] eqn:E; [|discriminate].
    simpl in H. apply IH in H. simpl in H. rewrite H.
    apply (probe_valid _ _ _ _ _ E).
Qed.

(** ** Ranks of a full set *)




(** ** [probe] seen from the set of the address *)

(** Inversion of a call of [probe] on a well-formed simulator, in terms of
    the spans of the set: the line [i] that [find_line] reports, the
    priorities of the set after the call, the tags, the reported dirty
    write-back and the cycles. *)
Lemma probe_inv s type address hit dirty_wb cycles s' vs ts ps :
  wf s ->
  span (valid s) (set_base s address) (associativity s) = Some vs ->
  span (tags s) (set_base s address) (associativity s) = Some ts ->
  span (priority s) (set_base s address) (associativity s) = Some ps ->
  probe s type address = Some (hit, dirty_wb, cycles, s') ->
  exists i : nat,
    find_line (get_tag s address) vs ts ps = (hit, Z.of_nat i) /\
    (i < length ps)%nat /\ length vs = length ps /\ length ts = length ps /\
    span (priority s') (set_base s address) (associativity s)
      = Some (update_priority (associativity s) i ps) /\
    tags s' = (if hit then tags s
               else <[(Z.to_nat (set_base s address) + i)%nat := get_tag s address]>
                      (tags s)) /\
    dirty_wb = (if hit then false
                else default false (dirty s !! (Z.to_nat (set_base s address) + i)%nat)) /\
    cycles = access_cycles s hit dirty_wb.
Proof.
  intros Hwf Hvs Hts Hps Hp.
  pose proof (wf_spans s address Hwf) as (Ht & _ & Hv & Hpr & Hb & Hn & Hn31).
  cbv zeta in Ht, Hv, Hpr, Hb, Hn, Hn31.
  rewrite Hv in Hvs. injection Hvs as <-.
  rewrite Ht in Hts. injection Hts as <-.
  rewrite Hpr in Hps. injection Hps as <-.
  destruct (probe_wf s type address Hwf) as (hit' & i & Hfind & Hi & E).
  cbv zeta in E. rewrite E in Hp. injection Hp as <- <- <- <-.
  pose proof (set_base_range s address Hwf) as (_ & Hb0 & _).
  destruct Hwf as [Ha Hm Hs Hl Hdl Hvl Hpl].
  set (n := Z.to_nat (associativity s)) in *.
  set (b := Z.to_nat (set_base s address)) in *.
  assert (Hlp : length (take n (drop b (priority s))) = n)
    by (rewrite length_take, length_drop; lia).
  exists i. split; [exact Hfind|]. split; [lia|].
  split; [rewrite Hlp, length_take, length_drop; lia|].
  split; [rewrite Hlp, length_take, length_drop; lia|].
  split; [|repeat split; reflexivity].
  simpl.
  pose proof (span_store_span (priority s)
                (update_priority (associativity s) i (take n (drop b (priority s))))
                (set_base s address) Hb0) as Hspan.
  rewrite update_priority_length, Hlp in Hspan.
  replace (Z.of_nat n) with (associativity s) in Hspan by (unfold n; lia).
  apply Hspan. fold b. lia.
Qed.

(** A miss in a set whose lines are all valid takes the position that
    [max_element] returns. *)
Lemma find_line_full_miss tag vs ts ps (i : nat) :
  length ts = length vs -> length ps = length vs ->
  (0 < length vs)%nat -> Z.of_nat (length vs) < 2 ^ 31 ->
  Forall (eq true) vs ->
  find_line tag vs ts ps = (false, Z.of_nat i) ->
  i = max_element ps.
Proof.
  intros Hts Hps Hpos Hlen Hfull Hfind.
  destruct (find_line_spec tag vs ts ps Hts Hps Hpos Hlen)
    as (hit' & i' & Hfind' & _ & _ & Hmiss).
  rewrite Hfind in Hfind'. injection Hfind' as <- Hii.
  apply Nat2Z.inj in Hii. subst i'.
  destruct (Hmiss eq_refl) as (_ & _ & Hmax).
  apply Hmax. intros k Hk.
  destruct (lookup_lt_is_Some_2 vs k Hk) as [v Hv].
  rewrite Hv. f_equal. symmetry.
  rewrite Forall_forall in Hfull. apply Hfull.
  apply list_elem_of_In, list_elem_of_lookup. exists k. exact Hv.
Qed.

(** ** Geometry of a power-of-two configuration *)

(** The population count of [2^k - 1] is [k]. *)
Lemma popcount_ones k : 0 <= k <= 32 -> popcount (2 ^ k - 1) = k.
Proof.
  intros Hk.
  assert (E : k = Z.of_nat (Z.to_nat k)) by lia.
  assert (Hn : (Z.to_nat k <= 32)%nat) by lia.
  rewrite E. generalize dependent (Z.to_nat k). clear. intros n _ Hn.
  do 33 (destruct n as [|n]; [vm_compute; reflexivity|]).
  lia.
Qed.

Lemma pow2_range k : 0 <= k <= 31 -> 1 <= 2 ^ k <= 2 ^ 31.
Proof.
  intros Hk. split.
  - pose proof (Z.pow_pos_nonneg 2 k ltac:(lia) ltac:(lia)). lia.
  - apply Z.pow_le_mono_r; lia.
Qed.

(** ** Cycles *)

Lemma s32_add_l x y : s32 (s32 x + y) = s32 (x + y).
Proof.
  unfold s32. f_equal.
  replace ((x + 2 ^ 31) mod 2 ^ 32 - 2 ^ 31 + y + 2 ^ 31)
    with ((x + 2 ^ 31) mod 2 ^ 32 + y) by lia.
  rewrite Zplus_mod_idemp_l. f_equal. lia.
Qed.

(** The cycles of an access: the sum of the penalties incurred, as an
    [int]. *)
Lemma access_cycles_sum s hit dirty_wb :
  access_cycles s hit dirty_wb =
  s32 ((if hit then 0 else miss_penalty s) +
       (if dirty_wb then dirty_wb_penalty s else 0)).
Proof.
  unfold access_cycles, add_penalty.
  destruct hit, dirty_wb; simpl; rewrite ?s32_u32.
  - reflexivity.
  - reflexivity.
  - rewrite s32_add_l. reflexivity.
  - rewrite Z.add_0_r. reflexivity.
Qed.

Lemma probe_cycles_inv s type address hit dirty_wb cycles s' :
  probe s type address = Some (hit, dirty_wb, cycles, s') ->
  cycles = access_cycles s hit dirty_wb.
Proof.
  intros H.
  apply probe_Some_inv in H as (ts & vs & ps & index & _ & _ & _ & _ & _ & Hc & _).
  exact Hc.
Qed.

(** ** Outcome of [probe] on a well-formed simulator *)

(** [probe] returns on every well-formed simulator. *)
Lemma probe_returns s type address :
  wf s ->
  exists hit dirty_wb cycles s',
    probe s type address = Some (hit, dirty_wb, cycles, s').
Proof.
  intros Hwf.
  destruct (probe_wf s type address Hwf) as (hit & i & _ & _ & E).
  cbv zeta in E. eauto.
Qed.

(** When no valid line of the set holds the tag, the access is a miss. *)
Lemma probe_miss s type address hit dirty_wb cycles s' vs ts :
  wf s ->
  span (valid s) (set_base s address) (associativity s) = Some vs ->
  span (tags s) (set_base s address) (associativity s) = Some ts ->
  (forall k : nat, vs !! k = Some true -> ts !! k <> Some (get_tag s address)) ->
  probe s type address = Some (hit, dirty_wb, cycles, s') ->
  hit = false.
Proof.
  intros Hwf Hvs Hts Hnone Hp.
  pose proof (wf_spans s address Hwf) as (_ & _ & _ & Hpr & _).
  cbv zeta in Hpr.
  destruct (probe_inv s type address hit dirty_wb cycles s' vs ts _
              Hwf Hvs Hts Hpr Hp)
    as (i & Hfind & Hi & Hlv & Hlt & _).
  pose proof (wf_assoc s Hwf) as Ha.
  pose proof (span_Some_inv _ _ _ _ Hvs) as (_ & _ & _ & _ & Hl).
  destruct (find_line_spec (get_tag s address) vs ts _
              (eq_trans Hlt (eq_sym Hlv)) (eq_sym Hlv))
    as (hit' & i' & Hfind' & _ & Hhit & _); try lia.
  rewrite Hfind in Hfind'. injection Hfind' as <- _.
  destruct hit; [|reflexivity].
  destruct (Hhit eq_refl) as (Hv & Ht & _).
  exfalso. apply (Hnone i' Hv Ht).
Qed.


(** The line that a miss takes, from the spans of the set: the last invalid
    slot when there is one, the first slot of greatest priority value when
    every line is valid. *)
Lemma probe_miss_line s type address dirty_wb cycles s' vs ps :
  wf s ->
  span (valid s) (set_base s address) (associativity s) = Some vs ->
  span (priority s) (set_base s address) (associativity s) = Some ps ->
  probe s type address = Some (false, dirty_wb, cycles, s') ->
  exists i : nat,
    tags s' = <[(Z.to_nat (set_base s address) + i)%nat := get_tag s address]> (tags s) /\
    dirty_wb = default false (dirty s !! (Z.to_nat (set_base s address) + i)%nat) /\
    ((exists k : nat, vs !! k = Some false) ->
       vs !! i = Some false /\
       forall j : nat, (i < j)%nat -> (j < length vs)%nat -> vs !! j = Some true) /\
    (Forall (eq true) vs ->
       exists m, ps !! i = Some m /\
         (forall (j : nat) q, ps !! j = Some q -> q <= m) /\
         (forall (j : nat) q, (j < i)%nat -> ps !! j = Some q -> q < m)).
Proof.
  intros Hwf Hvs Hps Hp.
  pose proof (wf_spans s address Hwf) as (Ht & _).
  cbv zeta in Ht.
  destruct (probe_inv s type address false dirty_wb cycles s' vs _ ps
              Hwf Hvs Ht Hps Hp)
    as (i & Hfind & Hi & Hlv & Hlt & _ & Htags & Hdw & _).
  pose proof (wf_assoc s Hwf) as Ha.
  pose proof (span_Some_inv _ _ _ _ Hvs) as (_ & _ & _ & _ & Hl).
  exists i. split; [exact Htags|]. split; [exact Hdw|]. split.
  - intros Hinv.
    destruct (find_line_spec (get_tag s address) vs _ ps
                (eq_trans Hlt (eq_sym Hlv)) (eq_sym Hlv))
      as (hit' & i' & Hfind' & _ & _ & Hmiss); try lia.
    rewrite Hfind in Hfind'. injection Hfind' as <- Hii.
    apply Nat2Z.inj in Hii. subst i'.
    destruct (Hmiss eq_refl) as (_ & Hlast & _).
    apply (Hlast Hinv).
  - intros Hfull.
    assert (Him : i = max_element ps)
      by (eapply find_line_full_miss; [| | | |exact Hfull|exact Hfind]; lia).
    assert (Hne : ps <> []) by (intros ->; simpl in Hi; lia).
    destruct (max_element_spec ps Hne) as (m & Hm & Hall & Hfirst).
    rewrite <- Him in Hm, Hfirst.
    exists m. split; [exact Hm|]. split; [exact Hall|exact Hfirst].
Qed.

(** ** Theorems *)

(** C2. No operation sets a valid flag.  From construction on, every run
    over every trace leaves every valid flag false, and so does any probe
    that follows, which is a miss; the scan of its set reports no hit
    whatever the tags hold (the tag comparison is not reached).  On a good
    geometry the run and the probe do return. *)
Theorem valid_never_set bs a c mp wbp s0 (trace : list access) :
  CacheSim_new bs a c mp wbp = Some s0 ->
  (forall s, run s0 trace = Some s ->
     Forall (eq false) (valid s) /\
     (forall type address hit dirty_wb cycles s',
        probe s type address = Some (hit, dirty_wb, cycles, s') ->
        hit = false /\ Forall (eq false) (valid s')) /\
     (forall address local_valid tag local_tags,
        span (valid s) (set_base s address) (associativity s) = Some local_valid ->
        fst (scan tag (zip local_valid local_tags) 0 (-1)) = None)) /\
  (good_config bs a c ->
     exists s, run s0 trace = Some s /\
       forall type address, exists dirty_wb cycles s',
         probe s type address = Some (false, dirty_wb, cycles, s')).
Proof.
  intros Hnew.
  assert (Hcold0 : Forall (eq false) (valid s0)).
  { unfold CacheSim_new in Hnew.
    destruct (bs =? 0); [discriminate|].
    destruct (u32 (bs * a) =? 0); [discriminate|].
    injection Hnew as <-. simpl. apply Forall_replicate. reflexivity. }
  split.
  - intros s Hrun.
    assert (Hcold : Forall (eq false) (valid s))
      by (rewrite (run_valid _ _ _ Hrun); exact Hcold0).
    split; [exact Hcold|]. split.
    + intros type address hit dw cyc s' Hp. split.
      * apply (probe_invalid_miss _ _ _ _ _ _ _ Hcold Hp).
      * rewrite (probe_valid _ _ _ _ _ Hp). exact Hcold.
    + intros address local_valid tag local_tags Hsp.
      apply scan_invalid_set. apply (Forall_span _ _ _ _ _ Hcold Hsp).
  - intros Hgood.
    destruct (CacheSim_new_wf bs a c mp wbp Hgood) as (s0' & E & Hwf0 & _).
    rewrite E in Hnew. injection Hnew as ->.
    destruct (run_cold trace s0 Hwf0 Hcold0) as (s & Hrun & Hwf & Hv).
    exists s. split; [exact Hrun|].
    assert (Hcold : Forall (eq false) (valid s)) by (rewrite Hv; exact Hcold0).
    intros type address.
    destruct (probe_cold s type address Hwf Hcold) as (dw & s' & Hp & _).
    exists dw, (access_cycles s false dw), s'. exact Hp.
Qed.

Lemma valid_never_set_witness :
  exists s0, CacheSim_new 16 1 16384 30 2 = Some s0 /\
  exists s, run s0 [(false, 0, 1); (true, 0, 1); (false, 16384, 2)] = Some s /\
    Forall (eq false) (valid s) /\
    forall type address, exists dirty_wb cycles s',
      probe s type address = Some (false, dirty_wb, cycles, s').
Proof.
  eexists. split; [reflexivity|].
  destruct (valid_never_set 16 1 16384 30 2 _
              [(false, 0, 1); (true, 0, 1); (false, 16384, 2)] eq_refl)
    as [Hsafe Hlive].
  destruct Hlive as (s & Hrun & Hprobe).
  - unfold good_config. repeat split; try lia. vm_compute. discriminate.
  - exists s. split; [exact Hrun|]. split; [|exact Hprobe].
    apply (Hsafe s Hrun).
Defined.

(** C1. Two addresses of one block, probed one after the other with no
    access in between: the first probe installs the tag in the line of the
    set, yet the second probe is a miss again, with the miss penalty.  The
    line was installed without its valid flag being set. *)
Theorem second_probe_misses :
  exists s0 s1 s2,
    CacheSim_new 16 1 16384 30 2 = Some s0 /\
    get_set s0 0x12340 = 564 /\ get_tag s0 0x12340 = 4 /\
    get_set s0 0x12348 = 564 /\ get_tag s0 0x12348 = 4 /\
    probe s0 false 0x12340 = Some (false, false, 30, s1) /\
    tags s1 !! 564%nat = Some 4 /\ valid s1 !! 564%nat = Some false /\
    probe s1 false 0x12348 = Some (false, false, 30, s2).
Proof.
  eexists. eexists. eexists.
  split; [reflexivity|].
  split; [reflexivity|]. split; [reflexivity|].
  split; [reflexivity|]. split; [reflexivity|].
  split; [vm_compute; reflexivity|].
  split; [reflexivity|]. split; [reflexivity|].
  vm_compute. reflexivity.
Qed.

(** Outside the runs of the simulator, on a state given directly: in
    [two_way_full] a read of tag 5 hits slot 0, of rank 0; slot 1 has rank
    1, above the old rank, and the in-place transform increments it to 2,
    where [spec_update_priority] leaves it at 1.  No run reaches such a
    state. *)
Lemma priority_update_differs :
  wf two_way_full /\
  (exists s', probe two_way_full false 0x50 = Some (true, false, 0, s') /\
              priority s' = [0; 2]) /\
  update_priority 2 0 [0; 1] = [0; 2] /\
  spec_update_priority 2 0 [0; 1] = [0; 1] /\
  update_priority 2 0 [0; 1] <> spec_update_priority 2 0 [0; 1].
Proof.
  split; [constructor; simpl; lia|].
  split; [eexists; split; reflexivity|].
  split; [reflexivity|]. split; [reflexivity|].
  vm_compute. discriminate.
Qed.

(** The update in closed form, for any accessed slot.  With [old] the
    priority of the accessed line before the update: the accessed line ends
    at 0; a line in an earlier slot is
    compared with [old]; a line in a later slot is compared with the value
    the accessed line holds once the transform has passed over it, [old + 1]
    when [old] is below the associativity; a line at or below the value it
    is compared with, and below the associativity (as unsigned), is
    incremented by one, every other line is unchanged. *)
Lemma update_priority_exact a (index : nat) ps old :
  ps !! index = Some old ->
  length (update_priority a index ps) = length ps /\
  update_priority a index ps !! index = Some 0 /\
  forall (j : nat) p, j <> index -> ps !! j = Some p ->
    update_priority a index ps !! j =
    Some (let cur := if (j <? index)%nat then old
                     else if u32 old <? a then old + 1 else old in
          if (p <=? cur) && (u32 p <? a) then p + 1 else p).
Proof.
  intros Hold.
  pose proof (lookup_lt_Some _ _ _ Hold) as Hlt.
  split; [apply update_priority_length|].
  unfold update_priority. split.
  - apply list_lookup_insert_eq. rewrite transform_length. exact Hlt.
  - intros j p Hne Hj.
    rewrite list_lookup_insert_ne by congruence.
    rewrite (transform_lookup a index ps old j p Hold Hj).
    f_equal. unfold transformed. rewrite Hold. simpl.
    unfold bump at 1.
    destruct (j <=? index)%nat eqn:E1; destruct (j <? index)%nat eqn:E2.
    + reflexivity.
    + apply Nat.leb_le in E1. apply Nat.ltb_ge in E2. lia.
    + apply Nat.leb_gt in E1. apply Nat.ltb_lt in E2. lia.
    + unfold bump. rewrite Z.leb_refl. reflexivity.
Qed.

(** C5, as stated, fails: in a new two-way cache both lines of set 0 are
    invalid, and the first invalid slot in scan order is slot 0; the miss on
    address 0x40 (set 0, tag 2) takes slot 1 and leaves slot 0 untouched. *)
Lemma first_invalid_not_taken :
  exists s0 s',
    CacheSim_new 16 2 64 30 2 = Some s0 /\
    get_set s0 0x40 = 0 /\ get_tag s0 0x40 = 2 /\
    span (valid s0) (set_base s0 0x40) 2 = Some [false; false] /\
    find_line 2 [false; false] [0; 0] [0; 0] = (false, 1) /\
    probe s0 false 0x40 = Some (false, false, 30, s') /\
    tags s0 = [0; 0; 0; 0] /\ tags s' = [0; 2; 0; 0].
Proof.
  eexists. eexists.
  split; [reflexivity|].
  repeat (split; [reflexivity|]). reflexivity.
Qed.

(** C5, amended.  When no valid line of the set holds the tag and the set
    has at least one invalid line, [probe] returns a miss and the line
    taken is the last invalid slot in scan order: the tag is written there,
    the dirty flag reported is that slot's, and every valid line of the
    cache keeps its tag. *)
Theorem miss_takes_last_invalid s type address vs ts :
  wf s ->
  span (valid s) (set_base s address) (associativity s) = Some vs ->
  span (tags s) (set_base s address) (associativity s) = Some ts ->
  (forall k : nat, vs !! k = Some true -> ts !! k <> Some (get_tag s address)) ->
  (exists k : nat, vs !! k = Some false) ->
  exists dirty_wb cycles s' (i : nat),
    probe s type address = Some (false, dirty_wb, cycles, s') /\
    vs !! i = Some false /\
    (forall j : nat, (i < j)%nat -> (j < length vs)%nat -> vs !! j = Some true) /\
    tags s' = <[(Z.to_nat (set_base s address) + i)%nat := get_tag s address]> (tags s) /\
    dirty_wb = default false (dirty s !! (Z.to_nat (set_base s address) + i)%nat) /\
    (forall k : nat, valid s !! k = Some true -> tags s' !! k = tags s !! k).
Proof.
  intros Hwf Hvs Hts Hnone Hinv.
  destruct (probe_returns s type address Hwf) as (hit & dw & cyc & s' & Hp).
  pose proof (probe_miss s type address hit dw cyc s' vs ts Hwf Hvs Hts Hnone Hp).
  subst hit.
  pose proof (wf_spans s address Hwf) as (_ & _ & _ & Hpr & _).
  cbv zeta in Hpr.
  destruct (probe_miss_line s type address dw cyc s' vs _ Hwf Hvs Hpr Hp)
    as (i & Htags & Hdw & Hlast & _).
  destruct (Hlast Hinv) as [Hvi Hafter].
  exists dw, cyc, s', i.
  split; [exact Hp|]. split; [exact Hvi|]. split; [exact Hafter|].
  split; [exact Htags|]. split; [exact Hdw|].
  intros k Hk. rewrite Htags.
  apply list_lookup_insert_ne. intros <-.
  rewrite <- (span_lookup _ _ _ _ _ Hvs) in Hk
    by (apply lookup_lt_Some in Hvi; exact Hvi).
  congruence.
Qed.

Lemma miss_takes_last_invalid_witness :
  exists dirty_wb cycles s' (i : nat),
    probe four_way_half true 0x90 = Some (false, dirty_wb, cycles, s') /\
    [false; true; false; true] !! i = Some false /\
    (forall j : nat, (i < j)%nat -> (j < 4)%nat ->
       [false; true; false; true] !! j = Some true) /\
    tags s' = <[(0 + i)%nat := 9]> [0; 6; 0; 8].
Proof.
  assert (Hwf : wf four_way_half) by (constructor; simpl; lia).
  assert (Hnone : forall k : nat,
             [false; true; false; true] !! k = Some true ->
             [0; 6; 0; 8] !! k <> Some 9).
  { intros [|[|[|[|k]]]] _; simpl; discriminate. }
  destruct (miss_takes_last_invalid four_way_half true 0x90
              [false; true; false; true] [0; 6; 0; 8] Hwf eq_refl eq_refl
              Hnone (ex_intro _ 0%nat eq_refl))
    as (dw & cyc & s' & i & Hp & Hvi & Hafter & Htags & _).
  exists dw, cyc, s', i.
  split; [exact Hp|]. split; [exact Hvi|]. split; [exact Hafter|exact Htags].
Defined.

(** C6.  When every line of the set is valid and none holds the tag,
    [probe] returns a miss and the line taken is the first line in scan
    order among those of the greatest priority value: every priority of the
    set is at most its priority, every earlier one is strictly below; the
    tag is written there and the dirty flag reported is that line's. *)
Theorem miss_takes_first_max s type address vs ts ps :
  wf s ->
  span (valid s) (set_base s address) (associativity s) = Some vs ->
  span (tags s) (set_base s address) (associativity s) = Some ts ->
  span (priority s) (set_base s address) (associativity s) = Some ps ->
  Forall (eq true) vs ->
  (forall k : nat, ts !! k <> Some (get_tag s address)) ->
  exists dirty_wb cycles s' (i : nat) m,
    probe s type address = Some (false, dirty_wb, cycles, s') /\
    ps !! i = Some m /\
    (forall (j : nat) q, ps !! j = Some q -> q <= m) /\
    (forall (j : nat) q, (j < i)%nat -> ps !! j = Some q -> q < m) /\
    tags s' = <[(Z.to_nat (set_base s address) + i)%nat := get_tag s address]> (tags s) /\
    dirty_wb = default false (dirty s !! (Z.to_nat (set_base s address) + i)%nat).
Proof.
  intros Hwf Hvs Hts Hps Hfull Hnone.
  destruct (probe_returns s type address Hwf) as (hit & dw & cyc & s' & Hp).
  pose proof (probe_miss s type address hit dw cyc s' vs ts Hwf Hvs Hts
                (fun k _ => Hnone k) Hp).
  subst hit.
  destruct (probe_miss_line s type address dw cyc s' vs ps Hwf Hvs Hps Hp)
    as (i & Htags & Hdw & _ & Hmax).
  destruct (Hmax Hfull) as (m & Hm & Hall & Hfirst).
  exists dw, cyc, s', i, m.
  split; [exact Hp|]. split; [exact Hm|]. split; [exact Hall|].
  split; [exact Hfirst|]. split; [exact Htags|exact Hdw].
Qed.

Lemma miss_takes_first_max_witness :
  exists dirty_wb cycles s' (i : nat) m,
    probe four_way_full false 0x90 = Some (false, dirty_wb, cycles, s') /\
    [1; 3; 3; 0] !! i = Some m /\
    (forall (j : nat) q, [1; 3; 3; 0] !! j = Some q -> q <= m) /\
    (forall (j : nat) q, (j < i)%nat -> [1; 3; 3; 0] !! j = Some q -> q < m) /\
    tags s' = <[(0 + i)%nat := 9]> [5; 6; 7; 8].
Proof.
  assert (Hwf : wf four_way_full) by (constructor; simpl; lia).
  assert (Hnone : forall k : nat, [5; 6; 7; 8] !! k <> Some 9).
  { intros [|[|[|[|k]]]]; simpl; discriminate. }
  destruct (miss_takes_first_max four_way_full false 0x90
              [true; true; true; true] [5; 6; 7; 8] [1; 3; 3; 0]
              Hwf eq_refl eq_refl eq_refl ltac:(repeat constructor) Hnone)
    as (dw & cyc & s' & i & m & Hp & Hm & Hall & Hfirst & Htags & _).
  exists dw, cyc, s', i, m.
  split; [exact Hp|]. split; [exact Hm|]. split; [exact Hall|].
  split; [exact Hfirst|exact Htags].
Defined.

(** C7.  For a block size [2^k] and a number of sets [2^sb], the
    constructor returns a simulator whose decoder shifts by
    [log2 block_size] and masks with [sets - 1] for the set, and shifts by
    [log2 block_size + log2 sets] for the tag, at every 64-bit address.
    With blocks of 16 bytes, one way and 16384 bytes, the addresses 0x0 and
    0x4000 have the same set and different tags. *)
Theorem decode_address :
  (forall bs a c mp wbp k sb,
     0 <= k <= 31 -> 0 <= sb <= 31 ->
     bs = 2 ^ k -> 0 < a -> bs * a < 2 ^ 32 ->
     0 <= c < 2 ^ 32 -> c / (bs * a) = 2 ^ sb ->
     let offset_bits := Z.log2 bs in
     let sets := c / (bs * a) in
     let set_bits := Z.log2 sets in
     let tag_shift := offset_bits + set_bits in
     exists s,
       CacheSim_new bs a c mp wbp = Some s /\
       set_offset s = offset_bits /\
       set_mask s = sets - 1 /\
       tag_offset s = tag_shift /\
       forall address, 0 <= address < 2 ^ 64 ->
         get_set s address = Z.land (Z.shiftr address offset_bits) (sets - 1) /\
         get_tag s address = Z.shiftr address tag_shift) /\
  (forall mp wbp, exists s,
     CacheSim_new 16 1 16384 mp wbp = Some s /\
     get_set s 0x0 = get_set s 0x4000 /\
     get_tag s 0x0 <> get_tag s 0x4000).
Proof.
  split.
  - intros bs a c mp wbp k sb Hk Hsb Hbs Ha Hprod Hc Hsets. cbv zeta.
    pose proof (pow2_range k Hk) as Hk2.
    pose proof (pow2_range sb Hsb) as Hsb2.
    unfold CacheSim_new.
    destruct (bs =? 0) eqn:E0; [apply Z.eqb_eq in E0; lia|].
    rewrite (u32_small (bs * a)) by nia.
    destruct (bs * a =? 0) eqn:E1; [apply Z.eqb_eq in E1; nia|].
    rewrite Hsets.
    assert (Hmask : s32 (u32 (2 ^ sb - 1)) = 2 ^ sb - 1)
      by (rewrite s32_u32; apply s32_small; lia).
    rewrite Hmask.
    rewrite (u32_small (2 ^ sb - 1)) by lia.
    rewrite (u32_small (bs - 1)) by lia.
    rewrite Hbs.
    rewrite !popcount_ones by lia.
    rewrite !Z.log2_pow2 by lia.
    eexists. split; [reflexivity|]. simpl.
    split; [reflexivity|]. split; [reflexivity|]. split; [reflexivity|].
    intros address Haddr. split; [|reflexivity].
    unfold get_set. simpl.
    rewrite (u64_small (2 ^ sb - 1)) by lia.
    apply s32_small.
    pose proof (land_mask_bounds (Z.shiftr address k) (2 ^ sb - 1) ltac:(lia)). lia.
  - intros mp wbp. eexists. split; [reflexivity|].
    split; [reflexivity|]. vm_compute. discriminate.
Qed.

Lemma decode_address_witness :
  exists s, CacheSim_new 64 8 32768 30 2 = Some s /\
    set_offset s = 6 /\ set_mask s = 63 /\ tag_offset s = 12 /\
    get_set s 0x12345 = Z.land (Z.shiftr 0x12345 6) 63 /\
    get_tag s 0x12345 = Z.shiftr 0x12345 12.
Proof.
  destruct (proj1 decode_address 64 8 32768 30 2 6 6
              ltac:(lia) ltac:(lia) eq_refl ltac:(lia) ltac:(lia) ltac:(lia)
              eq_refl)
    as (s & Hnew & H1 & H2 & H3 & H4).
  exists s. split; [exact Hnew|].
  split; [exact H1|]. split; [exact H2|]. split; [exact H3|].
  apply (H4 0x12345). lia.
Defined.

(** C8, as stated, fails: the cycles are summed in an [int]; with a miss
    penalty of 2^31 (an [unsigned] value) a clean miss returns -2^31 cycles
    and not the miss penalty. *)
Lemma large_penalty_cycles :
  exists s0 s',
    CacheSim_new 16 1 16 2147483648 2 = Some s0 /\
    miss_penalty s0 = 2147483648 /\
    probe s0 false 0 = Some (false, false, -2147483648, s').
Proof.
  eexists. eexists. split; [reflexivity|]. split; reflexivity.
Qed.

(** C8, amended.  The cycles that [probe] returns are the miss penalty if
    the access was not a hit plus the dirty write-back penalty if a dirty
    write-back was reported, reduced to an [int]; they are exactly that sum
    whenever the two penalties together stay below 2^31.  On a well-formed
    simulator [probe] does return. *)
Theorem probe_cycles s type address :
  (forall hit dirty_wb cycles s',
     probe s type address = Some (hit, dirty_wb, cycles, s') ->
     cycles = s32 ((if hit then 0 else miss_penalty s) +
                   (if dirty_wb then dirty_wb_penalty s else 0)) /\
     (0 <= miss_penalty s -> 0 <= dirty_wb_penalty s ->
      miss_penalty s + dirty_wb_penalty s < 2 ^ 31 ->
      cycles = (if hit then 0 else miss_penalty s) +
               (if dirty_wb then dirty_wb_penalty s else 0))) /\
  (wf s ->
   exists hit dirty_wb cycles s',
     probe s type address = Some (hit, dirty_wb, cycles, s')).
Proof.
  split; [|apply probe_returns].
  intros hit dirty_wb cycles s' Hp. apply probe_cycles_inv in Hp. subst cycles.
  rewrite access_cycles_sum. split; [reflexivity|].
  intros Hm Hd Hsum. apply s32_small.
  destruct hit, dirty_wb; lia.
Qed.

Lemma probe_cycles_witness :
  (exists s', probe four_way_full false 0x90 = Some (false, true, 30 + 2, s')) /\
  (exists s', probe two_way_full true 0x50 = Some (true, false, 0, s')).
Proof.
  split.
  - destruct (proj2 (probe_cycles four_way_full false 0x90))
      as (hit & dw & cyc & s' & Hp); [constructor; simpl; lia|].
    exists s'.
    destruct (proj1 (probe_cycles four_way_full false 0x90) hit dw cyc s' Hp)
      as [_ Hsum].
    rewrite Hp. rewrite (Hsum ltac:(simpl; lia) ltac:(simpl; lia) ltac:(simpl; lia)).
    clear Hsum. vm_compute in Hp.
    injection Hp. intros _ _ <- <-. reflexivity.
  - destruct (proj2 (probe_cycles two_way_full true 0x50))
      as (hit & dw & cyc & s' & Hp); [constructor; simpl; lia|].
    exists s'.
    destruct (proj1 (probe_cycles two_way_full true 0x50) hit dw cyc s' Hp)
      as [_ Hsum].
    rewrite Hp. rewrite (Hsum ltac:(simpl; lia) ltac:(simpl; lia) ltac:(simpl; lia)).
    clear Hsum. vm_compute in Hp.
    injection Hp. intros _ _ <- <-. reflexivity.
Defined.

(** C9, as stated, fails: blocks of 3 bytes and a capacity of 10 bytes are
    neither powers of two nor divisible, and the constructor returns a
    simulator (3 lines, set mask 2, shifts 1 and 2) on which accesses are
    then processed. *)
Lemma bad_geometry_accepted :
  exists s s' s'',
    CacheSim_new 3 1 10 30 2 = Some s /\
    length (tags s) = 3%nat /\ set_mask s = 2 /\
    set_offset s = 1 /\ tag_offset s = 2 /\
    probe s false 7 = Some (false, false, 30, s') /\
    run s [(false, 7, 1); (true, 8, 1)] = Some s''.
Proof.
  eexists. eexists. eexists. split; [reflexivity|].
  repeat (split; [reflexivity|]). reflexivity.
Qed.

(** C9, amended.  The constructor checks nothing: it returns a simulator
    for every geometry whose two divisors, the block size and the product
    of block size and associativity in 32 bits, are not zero, power of two
    or not, divisible or not, with the number of lines and the set mask
    given by the truncating divisions; whenever the geometry is good in the
    sense of [good_config], every trace is then run to its end. *)
Theorem construction_unchecked bs a c mp wbp :
  0 <= bs < 2 ^ 32 -> 0 <= a < 2 ^ 32 -> 0 <= c < 2 ^ 32 ->
  bs <> 0 -> u32 (bs * a) <> 0 ->
  exists s,
    CacheSim_new bs a c mp wbp = Some s /\
    block_size s = bs /\ associativity s = a /\ capacity s = c /\
    length (tags s) = Z.to_nat (c / bs) /\
    set_mask s = s32 (u32 (c / u32 (bs * a) - 1)) /\
    (good_config bs a c -> forall trace, exists s', run s trace = Some s').
Proof.
  intros _ _ _ Hbs Hprod.
  destruct (CacheSim_new bs a c mp wbp) as [s|] eqn:Hnew.
  - exists s. split; [reflexivity|].
    assert (Hfields : block_size s = bs /\ associativity s = a /\ capacity s = c /\
                      length (tags s) = Z.to_nat (c / bs) /\
                      set_mask s = s32 (u32 (c / u32 (bs * a) - 1))).
    { unfold CacheSim_new in Hnew.
      destruct (bs =? 0); [discriminate|].
      destruct (u32 (bs * a) =? 0); [discriminate|].
      injection Hnew as <-. simpl. rewrite length_replicate.
      repeat split; reflexivity. }
    destruct Hfields as (H1 & H2 & H3 & H4 & H5).
    repeat (split; [assumption|]).
    intros Hgood trace.
    destruct (CacheSim_new_wf bs a c mp wbp Hgood) as (s1 & E & Hwf & Hv & _).
    rewrite E in Hnew. injection Hnew as ->.
    destruct (run_cold trace s Hwf) as (s' & Hrun & _).
    + rewrite Hv. apply Forall_replicate. reflexivity.
    + exists s'. exact Hrun.
  - exfalso. unfold CacheSim_new in Hnew.
    destruct (bs =? 0) eqn:E0; [apply Z.eqb_eq in E0; contradiction|].
    destruct (u32 (bs * a) =? 0) eqn:E1; [apply Z.eqb_eq in E1; contradiction|].
    discriminate.
Qed.

Lemma construction_unchecked_witness :
  exists s,
    CacheSim_new 24 3 1000 30 2 = Some s /\
    length (tags s) = 41%nat /\ set_mask s = 12 /\
    exists s', run s [(false, 0x1234, 3); (true, 0xabcd, 1)] = Some s'.
Proof.
  destruct (construction_unchecked 24 3 1000 30 2)
    as (s & Hnew & _ & _ & _ & Hlen & Hmask & Hrun).
  - lia.
  - lia.
  - lia.
  - lia.
  - vm_compute. discriminate.
  - exists s. split; [exact Hnew|]. split; [exact Hlen|]. split; [exact Hmask|].
    apply Hrun. unfold good_config. repeat split; try lia. vm_compute. discriminate.
Defined.

(** A geometry that is accepted and on which no access can be simulated:
    with a capacity of one block and two ways there is no set (the set
    count is 0 and the mask -1), the vectors hold one line, and the spans
    of the first [probe] leave them. *)
Lemma geometry_without_set :
  exists s,
    CacheSim_new 16 2 16 30 2 = Some s /\
    length (tags s) = 1%nat /\ set_mask s = (-1) /\
    ~ good_config 16 2 16 /\
    probe s false 0 = None /\
    run s [(false, 0, 1)] = None.
Proof.
  eexists. split; [reflexivity|].
  split; [reflexivity|]. split; [reflexivity|].
  split; [unfold good_config; lia|].
  split; reflexivity.
Qed.

(** C10, as stated, fails: the report of a run without any access divides
    0.0 by 0.0 for both figures and holds two NaN; and with penalties of
    zero a run of one access of 5 instructions has 0 cycles and an IPC of
    plus infinity. *)
Lemma degenerate_report_divides :
  (exists s0 s,
     CacheSim_new 16 1 16384 30 2 = Some s0 /\ run s0 [] = Some s /\
     r_total_accesses (dump_stats s) = 0 /\ r_cycles (dump_stats s) = 0 /\
     r_miss_rate (dump_stats s) = S754_nan /\ r_ipc (dump_stats s) = S754_nan) /\
  (exists s0 s,
     CacheSim_new 16 1 16384 0 0 = Some s0 /\ run s0 [(false, 0, 5)] = Some s /\
     r_total_accesses (dump_stats s) = 1 /\ r_cycles (dump_stats s) = 0 /\
     r_instructions (dump_stats s) = 5 /\
     r_ipc (dump_stats s) = S754_infinity false).
Proof.
  split.
  - eexists. eexists. split; [reflexivity|]. split; [reflexivity|].
    repeat (split; [reflexivity|]). reflexivity.
  - eexists. eexists. split; [reflexivity|]. split; [vm_compute; reflexivity|].
    repeat (split; [reflexivity|]). reflexivity.
Qed.

(** C10, amended.  [dump_stats] divides without a guard and has no
    undefined result apart from what the division yields: with no access
    and no miss counted the miss rate is NaN, with no cycle and no
    instruction counted the IPC is NaN, and with no cycle counted the IPC
    is the quotient of the instruction count by 0.0.  The report of the
    simulator as constructed, before any access, holds NaN for both. *)
Theorem degenerate_stats :
  (forall s, mem_accesses_ s = 0 -> misses_ s = 0 ->
     r_miss_rate (dump_stats s) = S754_nan) /\
  (forall s, cycles_ s = 0 -> instructions_ s = 0 ->
     r_ipc (dump_stats s) = S754_nan) /\
  (forall s, cycles_ s = 0 ->
     r_ipc (dump_stats s) =
     SFdiv prec emax (to_double (instructions_ s)) (S754_zero false)) /\
  (forall bs a c mp wbp s0, CacheSim_new bs a c mp wbp = Some s0 ->
     run s0 [] = Some s0 /\
     r_total_accesses (dump_stats s0) = 0 /\
     r_miss_rate (dump_stats s0) = S754_nan /\
     r_ipc (dump_stats s0) = S754_nan).
Proof.
  split; [|split; [|split]].
  - intros s Ha Hm. simpl. unfold miss_rate. rewrite Ha, Hm. reflexivity.
  - intros s Hc Hi. simpl. unfold ipc. rewrite Hc, Hi. reflexivity.
  - intros s Hc. simpl. unfold ipc. rewrite Hc. reflexivity.
  - intros bs a c mp wbp s0 Hnew. unfold CacheSim_new in Hnew.
    destruct (bs =? 0); [discriminate|].
    destruct (u32 (bs * a) =? 0); [discriminate|].
    injection Hnew as <-. repeat split; reflexivity.
Qed.

Lemma degenerate_stats_witness :
  r_miss_rate (dump_stats two_way_full) = S754_nan /\
  r_ipc (dump_stats two_way_full) = S754_nan.
Proof.
  destruct degenerate_stats as (Hmiss & Hipc & _).
  split.
  - apply Hmiss; reflexivity.
  - apply Hipc; reflexivity.
Defined.

(** * Further properties of the simulator *)

(** ** Decoding and blocks *)

(** The settings that the constructor computes for a block size [2^k] and
    [2^sb] sets. *)
Lemma pow2_settings bs a c mp wbp k sb s :
  0 <= k <= 31 -> 0 <= sb <= 31 ->
  bs = 2 ^ k -> 0 < a -> bs * a < 2 ^ 32 ->
  0 <= c < 2 ^ 32 -> c / (bs * a) = 2 ^ sb ->
  CacheSim_new bs a c mp wbp = Some s ->
  set_offset s = k /\ set_mask s = 2 ^ sb - 1 /\ tag_offset s = k + sb.
Proof.
  intros Hk Hsb Hbs Ha Hprod Hc Hsets Hnew.
  pose proof (pow2_range k Hk) as Hk2.
  pose proof (pow2_range sb Hsb) as Hsb2.
  unfold CacheSim_new in Hnew.
  destruct (bs =? 0) eqn:E0; [apply Z.eqb_eq in E0; lia|].
  rewrite (u32_small (bs * a)) in Hnew by nia.
  destruct (bs * a =? 0) eqn:E1; [apply Z.eqb_eq in E1; nia|].
  rewrite Hsets in Hnew.
  assert (Hmask : s32 (u32 (2 ^ sb - 1)) = 2 ^ sb - 1)
    by (rewrite s32_u32; apply s32_small; lia).
  rewrite Hmask in Hnew.
  rewrite (u32_small (2 ^ sb - 1)) in Hnew by lia.
  rewrite (u32_small (bs - 1)) in Hnew by lia.
  rewrite Hbs in Hnew.
  rewrite !popcount_ones in Hnew by lia.
  injection Hnew as <-. simpl. repeat split; reflexivity.
Qed.

(** With a mask [2^sb - 1] the set is a remainder and the tag a quotient of
    the block number. *)
Lemma decode_div_mod s address k sb :
  0 <= k -> 0 <= sb <= 31 -> 0 <= address ->
  set_offset s = k -> set_mask s = 2 ^ sb - 1 -> tag_offset s = k + sb ->
  get_set s address = (address / 2 ^ k) mod 2 ^ sb /\
  get_tag s address = (address / 2 ^ k) / 2 ^ sb.
Proof.
  intros Hk Hsb Ha Hso Hsm Hto.
  pose proof (pow2_range sb Hsb) as Hsb2.
  assert (Hpk : 0 < 2 ^ k) by (apply Z.pow_pos_nonneg; lia).
  unfold get_set, get_tag. rewrite Hso, Hsm, Hto. cbv zeta.
  rewrite (u64_small (2 ^ sb - 1)) by lia.
  replace (2 ^ sb - 1) with (Z.ones sb) by (rewrite Z.ones_equiv; lia).
  rewrite Z.land_ones by lia.
  rewrite !Z.shiftr_div_pow2 by lia.
  split.
  - apply s32_small.
    pose proof (Z.mod_pos_bound (address / 2 ^ k) (2 ^ sb) ltac:(lia)). lia.
  - rewrite Z.pow_add_r by lia. rewrite Z.div_div by lia. reflexivity.
Qed.

(** X1. Round trip of the decoder for a power-of-two geometry: the tag and
    the set of an address give back its block number,
    [address / block_size = tag * sets + set] with [0 <= set < sets]; hence
    two addresses have the same set and tag exactly when they lie in the
    same block. *)
Theorem decode_block_roundtrip bs a c mp wbp k sb s :
  0 <= k <= 31 -> 0 <= sb <= 31 ->
  bs = 2 ^ k -> 0 < a -> bs * a < 2 ^ 32 ->
  0 <= c < 2 ^ 32 -> c / (bs * a) = 2 ^ sb ->
  CacheSim_new bs a c mp wbp = Some s ->
  (forall address, 0 <= address < 2 ^ 64 ->
     0 <= get_set s address < c / (bs * a) /\
     0 <= get_tag s address /\
     address / bs = get_tag s address * (c / (bs * a)) + get_set s address) /\
  (forall x y, 0 <= x < 2 ^ 64 -> 0 <= y < 2 ^ 64 ->
     (get_set s x = get_set s y /\ get_tag s x = get_tag s y <-> x / bs = y / bs)).
Proof.
  intros Hk Hsb Hbs Ha Hprod Hc Hsets Hnew.
  destruct (pow2_settings bs a c mp wbp k sb s Hk Hsb Hbs Ha Hprod Hc Hsets Hnew)
    as (Hso & Hsm & Hto).
  pose proof (pow2_range sb Hsb) as Hsb2.
  assert (Hpk : 0 < 2 ^ k) by (apply Z.pow_pos_nonneg; lia).
  rewrite Hsets, Hbs.
  assert (Hdec : forall address, 0 <= address ->
            get_set s address = (address / 2 ^ k) mod 2 ^ sb /\
            get_tag s address = (address / 2 ^ k) / 2 ^ sb)
    by (intros address Haddr; apply decode_div_mod; (lia || assumption)).
  split.
  - intros address Haddr. destruct (Hdec address ltac:(lia)) as [-> ->].
    pose proof (Z.mod_pos_bound (address / 2 ^ k) (2 ^ sb) ltac:(lia)).
    assert (0 <= address / 2 ^ k) by (apply Z.div_pos; lia).
    split; [lia|]. split; [apply Z.div_pos; lia|].
    pose proof (Z.div_mod (address / 2 ^ k) (2 ^ sb) ltac:(lia)). lia.
  - intros x y Hx Hy.
    destruct (Hdec x ltac:(lia)) as [-> ->].
    destruct (Hdec y ltac:(lia)) as [-> ->].
    split.
    + intros [Hm Hd].
      pose proof (Z.div_mod (x / 2 ^ k) (2 ^ sb) ltac:(lia)).
      pose proof (Z.div_mod (y / 2 ^ k) (2 ^ sb) ltac:(lia)).
      congruence.
    + intros ->. split; reflexivity.
Qed.

Lemma decode_block_roundtrip_witness :
  exists s, CacheSim_new 64 8 32768 30 2 = Some s /\
    0x12345 / 64 = get_tag s 0x12345 * 64 + get_set s 0x12345 /\
    (get_set s 0x12345 = get_set s 0x1237f /\ get_tag s 0x12345 = get_tag s 0x1237f).
Proof.
  eexists. split; [reflexivity|].
  destruct (decode_block_roundtrip 64 8 32768 30 2 6 6 _
              ltac:(lia) ltac:(lia) eq_refl ltac:(lia) ltac:(lia) ltac:(lia)
              eq_refl eq_refl) as [Hblock Hsame].
  split.
  - apply (Hblock 0x12345). lia.
  - apply (Hsame 0x12345 0x1237f); [lia|lia|reflexivity].
Defined.

(** X2. On every good geometry ([good_config]: a positive block size, an
    associativity that is positive and below 2^31, a product of the two
    below 2^32 and at most the capacity, a capacity below 2^32 and at most
    2^31 sets), power of two or not, the set of every address is one of
    the sets of the cache, and the lines of that set lie within the four
    vectors, which all have [capacity / block_size] elements. *)
Theorem set_within_cache bs a c mp wbp s address :
  good_config bs a c ->
  CacheSim_new bs a c mp wbp = Some s ->
  0 <= get_set s address < c / (bs * a) /\
  set_base s address = get_set s address * a /\
  set_base s address + a <= c / bs /\
  length (tags s) = Z.to_nat (c / bs) /\
  length (dirty s) = Z.to_nat (c / bs) /\
  length (valid s) = Z.to_nat (c / bs) /\
  length (priority s) = Z.to_nat (c / bs).
Proof.
  intros Hgood Hnew.
  destruct (CacheSim_new_wf bs a c mp wbp Hgood) as (s1 & E & Hwf & _ & Ha & _).
  rewrite E in Hnew. injection Hnew as ->.
  pose proof (set_base_range s address Hwf) as (Hb & _ & Hr).
  pose proof (get_set_range s address (wf_mask s Hwf)) as Hg.
  pose proof (wf_dirty s Hwf) as Hd.
  pose proof (wf_valid s Hwf) as Hv.
  pose proof (wf_priority s Hwf) as Hp.
  destruct Hgood as (Hbs & Ha' & Hprod & Hc & Hc32 & Hsets).
  assert (Hm : set_mask s = c / (bs * a) - 1 /\ length (tags s) = Z.to_nat (c / bs)).
  { unfold CacheSim_new in E.
    destruct (bs =? 0); [discriminate|].
    rewrite (u32_small (bs * a)) in E by nia.
    destruct (bs * a =? 0); [discriminate|].
    injection E as <-. simpl. rewrite length_replicate. split; [|reflexivity].
    assert (1 <= c / (bs * a)) by (apply Z.div_le_lower_bound; nia).
    rewrite s32_u32. apply s32_small. lia. }
  destruct Hm as [Hm Hl].
  assert (0 <= c / bs) by (apply Z.div_pos; lia).
  rewrite Hd, Hv, Hp, Hl. rewrite Ha in Hb, Hr. rewrite Hl in Hr.
  repeat split; try lia.
Qed.

Lemma set_within_cache_witness :
  exists s, CacheSim_new 24 3 1000 30 2 = Some s /\
    0 <= get_set s 0xabcdef < 13 /\
    set_base s 0xabcdef + 3 <= 41.
Proof.
  assert (E : exists s, CacheSim_new 24 3 1000 30 2 = Some s)
    by (eexists; reflexivity).
  destruct E as [s E]. exists s. split; [exact E|].
  destruct (set_within_cache 24 3 1000 30 2 s 0xabcdef) as (H1 & _ & H2 & _).
  - unfold good_config. repeat split; try lia. vm_compute. discriminate.
  - exact E.
  - split; [exact H1|exact H2].
Defined.

(** ** What one access changes *)

Lemma span_store_lookup_outside {A} (v l : list A) base (k : nat) :
  (Z.to_nat base + length l <= length v)%nat ->
  (k < Z.to_nat base \/ Z.to_nat base + length l <= k)%nat ->
  span_store v base l !! k = v !! k.
Proof.
  intros Hl Hk. unfold span_store.
  destruct Hk as [Hk|Hk].
  - rewrite lookup_app_l by (rewrite length_take; lia).
    apply lookup_take_lt. exact Hk.
  - rewrite lookup_app_r by (rewrite length_take; lia).
    rewrite length_take.
    rewrite lookup_app_r by lia.
    rewrite lookup_drop. f_equal. lia.
Qed.

Lemma span_store_lookup_inside {A} (v l : list A) base (i : nat) :
  (Z.to_nat base <= length v)%nat -> (i < length l)%nat ->
  span_store v base l !! (Z.to_nat base + i)%nat = l !! i.
Proof.
  intros Hb Hi. unfold span_store.
  rewrite lookup_app_r by (rewrite length_take; lia).
  rewrite length_take.
  rewrite lookup_app_l by lia.
  f_equal. lia.
Qed.

(** X3. An access touches one set only: [probe] keeps the settings, the
    counters, the valid flags and the well-formedness of the simulator, and
    every line outside the set of the address keeps its tag, its dirty
    flag and its priority. *)
Theorem probe_frame s type address hit dirty_wb cycles s' :
  wf s ->
  probe s type address = Some (hit, dirty_wb, cycles, s') ->
  wf s' /\ settings s' = settings s /\ counters s' = counters s /\
  valid s' = valid s /\
  forall k : nat,
    (k < Z.to_nat (set_base s address) \/
     Z.to_nat (set_base s address) + Z.to_nat (associativity s) <= k)%nat ->
    tags s' !! k = tags s !! k /\
    dirty s' !! k = dirty s !! k /\
    priority s' !! k = priority s !! k.
Proof.
  intros Hwf Hp.
  split; [exact (probe_preserves_wf _ _ _ _ _ Hwf Hp)|].
  destruct (probe_wf s type address Hwf) as (hit' & i & _ & Hi & E).
  cbv zeta in E. rewrite E in Hp. injection Hp as _ _ _ <-.
  pose proof (wf_spans s address Hwf) as (_ & _ & _ & _ & Hb & Hn & _).
  cbv zeta in Hb, Hn.
  pose proof (wf_priority s Hwf) as Hpl.
  split; [reflexivity|]. split; [reflexivity|]. split; [reflexivity|].
  intros k Hk. simpl. split; [|split].
  - destruct hit'; [reflexivity|]. apply list_lookup_insert_ne. lia.
  - apply list_lookup_insert_ne. lia.
  - apply span_store_lookup_outside;
      rewrite update_priority_length, length_take, length_drop; lia.
Qed.

Lemma probe_frame_witness :
  exists s0 s',
    CacheSim_new 16 2 64 30 2 = Some s0 /\
    probe s0 true 0x50 = Some (false, false, 30, s') /\
    tags s' !! 0%nat = tags s0 !! 0%nat /\
    dirty s' !! 1%nat = dirty s0 !! 1%nat /\
    counters s' = counters s0.
Proof.
  assert (E : exists s0, CacheSim_new 16 2 64 30 2 = Some s0)
    by (eexists; reflexivity).
  destruct E as [s0 E].
  assert (Hwf : wf s0).
  { destruct (CacheSim_new_wf 16 2 64 30 2) as (s1 & E1 & Hwf & _).
    - unfold good_config. repeat split; try lia. vm_compute. discriminate.
    - rewrite E in E1. injection E1 as <-. exact Hwf. }
  assert (Hp : exists s', probe s0 true 0x50 = Some (false, false, 30, s')).
  { vm_compute in E. injection E as <-. eexists. reflexivity. }
  destruct Hp as [s' Hp].
  exists s0, s'. split; [exact E|]. split; [exact Hp|].
  destruct (probe_frame s0 true 0x50 false false 30 s' Hwf Hp)
    as (_ & _ & Hc & _ & Hk).
  assert (Hb : set_base s0 0x50 = 2)
    by (clear -E; vm_compute in E; injection E as <-; reflexivity).
  assert (Ha : associativity s0 = 2)
    by (clear -E; vm_compute in E; injection E as <-; reflexivity).
  rewrite Hb, Ha in Hk.
  split; [apply (Hk 0%nat); lia|]. split; [apply (Hk 1%nat); lia|exact Hc].
Defined.

(** X4. After every access the set of the address holds the block: some
    line of the set has the tag of the address, the access type as its
    dirty flag (a read clears it, a write sets it) and priority 0. *)
Theorem probe_installs s type address hit dirty_wb cycles s' :
  wf s ->
  probe s type address = Some (hit, dirty_wb, cycles, s') ->
  exists i : nat,
    (i < Z.to_nat (associativity s))%nat /\
    tags s' !! (Z.to_nat (set_base s address) + i)%nat = Some (get_tag s address) /\
    dirty s' !! (Z.to_nat (set_base s address) + i)%nat = Some type /\
    priority s' !! (Z.to_nat (set_base s address) + i)%nat = Some 0.
Proof.
  intros Hwf Hp.
  pose proof (wf_spans s address Hwf) as (Ht & _ & Hv & Hpr & Hb & Hn & Hn31).
  cbv zeta in Ht, Hv, Hpr, Hb, Hn, Hn31.
  destruct (probe_inv s type address hit dirty_wb cycles s' _ _ _
              Hwf Hv Ht Hpr Hp)
    as (i & Hfind & Hi & Hlv & Hlt & Hspan & Htags & _).
  destruct (probe_wf s type address Hwf) as (hit' & i' & Hfind' & Hi' & E).
  cbv zeta in E. rewrite Hfind in Hfind'. injection Hfind' as <- Hii.
  apply Nat2Z.inj in Hii. subst i'.
  rewrite E in Hp. injection Hp as _ _ <-.
  pose proof (wf_dirty s Hwf) as Hdl.
  pose proof (wf_priority s Hwf) as Hpl.
  exists i. split; [exact Hi'|]. simpl. split; [|split].
  - destruct hit.
    + destruct (find_line_spec (get_tag s address) _ _ _
                  (eq_trans Hlt (eq_sym Hlv)) (eq_sym Hlv))
        as (h & j & Hf & _ & Hhit & _);
        try (rewrite length_take, length_drop, (wf_valid s Hwf); lia).
      rewrite Hfind in Hf. injection Hf as <- Hij.
      apply Nat2Z.inj in Hij. subst j.
      destruct (Hhit eq_refl) as (_ & Hti & _).
      rewrite lookup_take_lt in Hti by lia.
      rewrite lookup_drop in Hti. exact Hti.
    + apply list_lookup_insert_eq. lia.
  - apply list_lookup_insert_eq. lia.
  - rewrite span_store_lookup_inside
      by (rewrite ?update_priority_length, ?length_take, ?length_drop; lia).
    unfold update_priority. apply list_lookup_insert_eq.
    rewrite transform_length, length_take, length_drop. lia.
Qed.

Lemma probe_installs_witness :
  exists s' (i : nat),
    probe four_way_half true 0x90 = Some (false, false, 30, s') /\
    (i < 4)%nat /\
    tags s' !! (0 + i)%nat = Some 9 /\
    dirty s' !! (0 + i)%nat = Some true /\
    priority s' !! (0 + i)%nat = Some 0.
Proof.
  eexists.
  assert (Hp : probe four_way_half true 0x90 = Some (false, false, 30, _))
    by reflexivity.
  assert (Hwf : wf four_way_half) by (constructor; simpl; lia).
  destruct (probe_installs four_way_half true 0x90 false false 30 _ Hwf Hp)
    as (i & Hi & Ht & Hd & Hpr).
  exists i. split; [exact Hp|]. split; [exact Hi|].
  split; [exact Ht|]. split; [exact Hd|exact Hpr].
Defined.

(** ** Hits *)

(** X5. [probe] reports a hit exactly when a valid line of the set holds
    the tag of the address; a hit leaves every tag as it is, reports no
    dirty write-back and costs no cycle. *)
Theorem probe_hit_iff s type address hit dirty_wb cycles s' vs ts :
  wf s ->
  span (valid s) (set_base s address) (associativity s) = Some vs ->
  span (tags s) (set_base s address) (associativity s) = Some ts ->
  probe s type address = Some (hit, dirty_wb, cycles, s') ->
  (hit = true <->
   exists k : nat, vs !! k = Some true /\ ts !! k = Some (get_tag s address)) /\
  (hit = true -> tags s' = tags s /\ dirty_wb = false /\ cycles = 0).
Proof.
  intros Hwf Hvs Hts Hp.
  pose proof (wf_spans s address Hwf) as (_ & _ & _ & Hpr & _).
  cbv zeta in Hpr.
  destruct (probe_inv s type address hit dirty_wb cycles s' vs ts _
              Hwf Hvs Hts Hpr Hp)
    as (i & Hfind & Hi & Hlv & Hlt & _ & Htags & Hdw & Hcyc).
  pose proof (wf_assoc s Hwf) as Ha.
  pose proof (span_Some_inv _ _ _ _ Hvs) as (_ & _ & _ & _ & Hl).
  destruct (find_line_spec (get_tag s address) vs ts _
              (eq_trans Hlt (eq_sym Hlv)) (eq_sym Hlv))
    as (hit' & i' & Hfind' & _ & Hhit & Hmiss); try lia.
  rewrite Hfind in Hfind'. injection Hfind' as <- _.
  split; [split|].
  - intros Hh. destruct (Hhit Hh) as (Hv & Ht & _). exists i'. split; assumption.
  - intros (k & Hv & Ht). destruct hit; [reflexivity|].
    destruct (Hmiss eq_refl) as (Hnone & _).
    exfalso. apply (Hnone k Hv Ht).
  - intros ->. split; [exact Htags|]. split; [exact Hdw|].
    rewrite Hcyc, Hdw. reflexivity.
Qed.

Lemma probe_hit_iff_witness :
  exists s',
    probe two_way_full true 0x68 = Some (true, false, 0, s') /\
    tags s' = tags two_way_full /\
    exists k : nat, [true; true] !! k = Some true /\ [5; 6] !! k = Some 6.
Proof.
  eexists.
  assert (Hp : probe two_way_full true 0x68 = Some (true, false, 0, _))
    by reflexivity.
  assert (Hwf : wf two_way_full) by (constructor; simpl; lia).
  destruct (probe_hit_iff two_way_full true 0x68 true false 0 _
              [true; true] [5; 6] Hwf eq_refl eq_refl Hp) as [Hiff Hhit].
  split; [exact Hp|]. split.
  - apply (Hhit eq_refl).
  - apply Hiff. reflexivity.
Defined.

(** ** Priorities stay bounded *)

Lemma bump_bounded a cur p :
  0 <= a < 2 ^ 31 -> 0 <= p <= a -> 0 <= bump a cur p <= a.
Proof.
  intros Ha Hp. unfold bump.
  destruct (p <=? cur); simpl; [|lia].
  rewrite u32_small by lia.
  destruct (p <? a) eqn:E; [apply Z.ltb_lt in E|]; lia.
Qed.

Lemma update_priority_bounded a (i : nat) ps :
  0 <= a < 2 ^ 31 -> (i < length ps)%nat ->
  Forall (fun p => 0 <= p <= a) ps ->
  Forall (fun p => 0 <= p <= a) (update_priority a i ps).
Proof.
  intros Ha Hi Hall.
  destruct (lookup_lt_is_Some_2 ps i Hi) as [old Hold].
  apply Forall_lookup. intros j q Hq.
  assert (Hj : (j < length ps)%nat)
    by (apply lookup_lt_Some in Hq; rewrite update_priority_length in Hq; exact Hq).
  destruct (lookup_lt_is_Some_2 ps j Hj) as [p Hp].
  unfold update_priority in Hq.
  destruct (decide (j = i)) as [->|Hne].
  - rewrite list_lookup_insert_eq in Hq by (rewrite transform_length; exact Hi).
    injection Hq as <-. lia.
  - rewrite list_lookup_insert_ne in Hq by congruence.
    rewrite (transform_lookup a i ps old j p Hold Hp) in Hq.
    injection Hq as <-. unfold transformed.
    apply bump_bounded; [exact Ha|].
    apply (Forall_lookup_1 _ _ _ _ Hall Hp).
Qed.

Lemma probe_priority_bounded s type address r s' :
  wf s ->
  Forall (fun p => 0 <= p <= associativity s) (priority s) ->
  probe s type address = Some (r, s') ->
  Forall (fun p => 0 <= p <= associativity s) (priority s').
Proof.
  intros Hwf Hall Hp.
  destruct (probe_wf s type address Hwf) as (hit & i & _ & Hi & E).
  cbv zeta in E. rewrite E in Hp. injection Hp as _ <-. simpl.
  pose proof (wf_assoc s Hwf) as Ha.
  pose proof (wf_spans s address Hwf) as (_ & _ & _ & _ & Hb & Hn & _).
  cbv zeta in Hb, Hn.
  pose proof (wf_priority s Hwf) as Hpl.
  unfold span_store. apply Forall_app. split; [apply Forall_take, Hall|].
  apply Forall_app. split; [|apply Forall_drop, Hall].
  apply update_priority_bounded; [lia| |apply Forall_take, Forall_drop, Hall].
  rewrite length_take, length_drop. lia.
Qed.

(** [probe] keeps the settings and the counters, on any simulator. *)
Lemma probe_settings s type address r s' :
  probe s type address = Some (r, s') ->
  settings s' = settings s /\ counters s' = counters s.
Proof.
  unfold probe. intros H.
  destruct (span (tags s) _ _); [|discriminate]. simpl in H.
  destruct (span (dirty s) _ _); [|discriminate]. simpl in H.
  destruct (span (valid s) _ _); [|discriminate]. simpl in H.
  destruct (span (priority s) _ _); [|discriminate]. simpl in H.
  destruct (find_line _ _ _ _) as [hit index].
  destruct ((0 <=? index) && (index <? associativity s)); [|discriminate].
  injection H as _ <-. split; reflexivity.
Qed.

Lemma run_access_settings s acc s' :
  run_access s acc = Some s' -> settings s' = settings s /\ valid s' = valid s.
Proof.
  destruct acc as [[type address] instructions]. unfold run_access.
  destruct (probe s type address) as [[[[hit dw] cyc] s1]|] eqn:E; [|discriminate].
  simpl. intros H. injection H as <-.
  pose proof (probe_settings _ _ _ _ _ E) as [Hs _].
  pose proof (probe_valid _ _ _ _ _ E) as Hv.
  split; [rewrite <- Hs; reflexivity|exact Hv].
Qed.

Lemma run_access_wf s acc s' :
  wf s -> run_access s acc = Some s' -> wf s'.
Proof.
  destruct acc as [[type address] instructions]. unfold run_access. intros Hwf.
  destruct (probe s type address) as [[[[hit dw] cyc] s1]|] eqn:E; [|discriminate].
  simpl. intros H. injection H as <-.
  apply update_stats_wf. exact (probe_preserves_wf _ _ _ _ _ Hwf E).
Qed.

Lemma run_cons_inv s acc rest s' :
  run s (acc :: rest) = Some s' ->
  exists s1, run_access s acc = Some s1 /\ run s1 rest = Some s'.
Proof.
  intros H. change (run_access s acc ≫= (fun s1 => run s1 rest) = Some s') in H.
  destruct (run_access s acc) as [s1|]; [|discriminate].
  exists s1. split; [reflexivity|exact H].
Qed.

Lemma run_access_inv s type address instructions s' :
  run_access s (type, address, instructions) = Some s' ->
  exists hit dirty_wb cycles s1,
    probe s type address = Some (hit, dirty_wb, cycles, s1) /\
    s' = update_stats s1 instructions type hit dirty_wb (s32 cycles).
Proof.
  unfold run_access. intros H.
  destruct (probe s type address) as [[[[hit dw] cyc] s1]|]; [|discriminate].
  simpl in H. injection H as <-. eauto 6.
Qed.

(** X6. The priorities never leave the range from 0 to the associativity:
    if they are in that range on a well-formed simulator, as they are at
    construction, they are in it after any run. *)
Theorem priorities_bounded trace : forall s s',
  wf s ->
  Forall (fun p => 0 <= p <= associativity s) (priority s) ->
  run s trace = Some s' ->
  associativity s' = associativity s /\
  Forall (fun p => 0 <= p <= associativity s) (priority s').
Proof.
  induction trace as [|[[type address] instructions] rest IH];
    intros s s' Hwf Hall Hrun.
  - simpl in Hrun. injection Hrun as <-. split; [reflexivity|exact Hall].
  - apply run_cons_inv in Hrun as (s1 & E & Hrun).
    pose proof (run_access_wf _ _ _ Hwf E) as Hwf1.
    pose proof (run_access_settings _ _ _ E) as [Hset _].
    assert (Ha : associativity s1 = associativity s)
      by (unfold settings in Hset; congruence).
    assert (Hall1 : Forall (fun p => 0 <= p <= associativity s1) (priority s1)).
    { rewrite Ha.
      apply run_access_inv in E as (hit & dw & cyc & s2 & Ep & ->). simpl.
      apply (probe_priority_bounded s type address _ s2 Hwf Hall Ep). }
    destruct (IH s1 s' Hwf1 Hall1 Hrun) as [Ha' Hall'].
    split; [congruence|]. rewrite <- Ha. exact Hall'.
Qed.

Lemma priorities_bounded_witness :
  exists s0 s,
    CacheSim_new 16 4 128 30 2 = Some s0 /\
    run s0 [(false, 0x40, 1); (true, 0x40, 2); (false, 0x10, 1)] = Some s /\
    Forall (fun p => 0 <= p <= 4) (priority s).
Proof.
  assert (E : exists s0, CacheSim_new 16 4 128 30 2 = Some s0)
    by (eexists; reflexivity).
  destruct E as [s0 E].
  destruct (CacheSim_new_wf 16 4 128 30 2) as (s1 & E1 & Hwf & _ & Ha & _).
  { unfold good_config. repeat split; try lia. vm_compute. discriminate. }
  rewrite E in E1. injection E1 as <-.
  assert (Hrun : exists s,
            run s0 [(false, 0x40, 1); (true, 0x40, 2); (false, 0x10, 1)] = Some s).
  { clear -E. vm_compute in E. injection E as <-. eexists. vm_compute. reflexivity. }
  destruct Hrun as [s Hrun].
  exists s0, s. split; [exact E|]. split; [exact Hrun|].
  assert (Hall : Forall (fun p => 0 <= p <= associativity s0) (priority s0)).
  { clear -E. vm_compute in E. injection E as <-. simpl. repeat constructor; lia. }
  destruct (priorities_bounded _ s0 s Hwf Hall Hrun) as [_ H].
  rewrite Ha in H. exact H.
Defined.

(** ** A cache without valid lines *)

Lemma probe_dirty_wb_miss s type address hit dirty_wb cycles s' :
  probe s type address = Some (hit, dirty_wb, cycles, s') ->
  dirty_wb = true -> hit = false.
Proof.
  unfold probe. intros H.
  destruct (span (tags s) _ _); [|discriminate]. simpl in H.
  destruct (span (dirty s) _ _); [|discriminate]. simpl in H.
  destruct (span (valid s) _ _); [|discriminate]. simpl in H.
  destruct (span (priority s) _ _); [|discriminate]. simpl in H.
  destruct (find_line _ _ _ _) as [hit0 index].
  destruct ((0 <=? index) && (index <? associativity s)); [|discriminate].
  injection H as <- <- _ _. destruct hit0; [discriminate|reflexivity].
Qed.

(** With every line invalid, an access replaces the last line of its set. *)
Lemma cold_probe s type address :
  wf s -> Forall (eq false) (valid s) ->
  exists s',
    probe s type address =
      Some (false, default false (dirty s !! last_slot s address),
            access_cycles s false (default false (dirty s !! last_slot s address)), s') /\
    tags s' = <[last_slot s address := get_tag s address]> (tags s) /\
    dirty s' = <[last_slot s address := type]> (dirty s) /\
    (last_slot s address < length (dirty s))%nat /\
    wf s' /\ valid s' = valid s /\ settings s' = settings s /\
    counters s' = counters s /\
    priority s' =
      span_store (priority s) (set_base s address)
        (update_priority (associativity s) (Z.to_nat (associativity s) - 1)
           (take (Z.to_nat (associativity s))
              (drop (Z.to_nat (set_base s address)) (priority s)))).
Proof.
  intros Hwf Hcold.
  pose proof (wf_spans s address Hwf) as (Ht & _ & Hv & Hpr & Hb & Hn & Hn31).
  cbv zeta in Ht, Hv, Hpr, Hb, Hn, Hn31.
  destruct (probe_cold s type address Hwf Hcold) as (dw & s' & Hp & Hwf' & Hv').
  destruct (probe_inv s type address false dw _ s' _ _ _ Hwf Hv Ht Hpr Hp)
    as (i & Hfind & Hi & Hlv & Hlt & _ & Htags & Hdw & _).
  set (n := Z.to_nat (associativity s)) in *.
  set (b := Z.to_nat (set_base s address)) in *.
  set (vs := take n (drop b (valid s))) in *.
  assert (Hlvs : length vs = n)
    by (unfold vs; rewrite length_take, length_drop, (wf_valid s Hwf); lia).
  assert (Hvs : forall k : nat, (k < n)%nat -> vs !! k = Some false).
  { intros k Hk.
    destruct (lookup_lt_is_Some_2 vs k ltac:(lia)) as [v Hvk].
    rewrite Hvk. f_equal. symmetry.
    assert (Hf : Forall (eq false) vs) by (apply Forall_take, Forall_drop, Hcold).
    apply (Forall_lookup_1 _ _ _ _ Hf Hvk). }
  destruct (find_line_spec (get_tag s address) vs _ _
              (eq_trans Hlt (eq_sym Hlv)) (eq_sym Hlv))
    as (hit' & i' & Hfind' & Hi' & _ & Hmiss); try lia.
  rewrite Hfind in Hfind'. injection Hfind' as <- Hii.
  apply Nat2Z.inj in Hii. subst i'.
  destruct (Hmiss eq_refl) as (_ & Hlast & _).
  destruct (Hlast (ex_intro _ O (Hvs O Hn))) as [_ Hafter].
  assert (Hin : i = (n - 1)%nat).
  { destruct (decide (i = (n - 1)%nat)) as [|Hne]; [assumption|].
    pose proof (Hafter (n - 1)%nat ltac:(lia) ltac:(lia)) as Ht1.
    rewrite (Hvs (n - 1)%nat ltac:(lia)) in Ht1. discriminate. }
  assert (Hslot : last_slot s address = (b + i)%nat)
    by (unfold last_slot; fold n b; lia).
  exists s'. rewrite Hslot. rewrite <- Hdw.
  pose proof (probe_settings _ _ _ _ _ Hp) as [Hset Hcnt].
  pose proof (wf_dirty s Hwf) as Hdl.
  destruct (probe_wf s type address Hwf) as (h & j & Hf & Hj & E).
  cbv zeta in E. fold n b vs in Hf. rewrite Hfind in Hf. injection Hf as <- Hij.
  apply Nat2Z.inj in Hij. subst j.
  split; [exact Hp|]. split; [exact Htags|].
  rewrite E in Hp. injection Hp as _ _ <-.
  split; [reflexivity|]. split; [lia|]. split; [exact Hwf'|].
  split; [reflexivity|]. split; [reflexivity|]. split; [reflexivity|].
  simpl. fold n b. rewrite Hin. reflexivity.
Qed.

(** X7. While no line is valid, every access is a miss that replaces the
    last line of its set: the tag is written there, the dirty flag there
    becomes the access type, and the dirty write-back reported is the dirty
    flag that this line had. *)
Theorem cold_access_replaces_last_line s type address :
  wf s -> Forall (eq false) (valid s) ->
  exists cycles s',
    probe s type address =
      Some (false, default false (dirty s !! last_slot s address), cycles, s') /\
    tags s' = <[last_slot s address := get_tag s address]> (tags s) /\
    dirty s' = <[last_slot s address := type]> (dirty s) /\
    Forall (eq false) (valid s').
Proof.
  intros Hwf Hcold.
  destruct (cold_probe s type address Hwf Hcold)
    as (s' & Hp & Ht & Hd & _ & _ & Hv & _).
  eexists. exists s'. split; [exact Hp|]. split; [exact Ht|]. split; [exact Hd|].
  rewrite Hv. exact Hcold.
Qed.

Lemma cold_access_replaces_last_line_witness :
  exists s0 cycles s',
    CacheSim_new 16 4 128 30 2 = Some s0 /\
    probe s0 true 0x50 = Some (false, false, cycles, s') /\
    tags s' = <[7%nat := 2]> (tags s0) /\
    dirty s' = <[7%nat := true]> (dirty s0).
Proof.
  assert (E : exists s0, CacheSim_new 16 4 128 30 2 = Some s0)
    by (eexists; reflexivity).
  destruct E as [s0 E].
  destruct (CacheSim_new_wf 16 4 128 30 2) as (s1 & E1 & Hwf & Hv & _).
  { unfold good_config. repeat split; try lia. vm_compute. discriminate. }
  rewrite E in E1. injection E1 as <-.
  destruct (cold_access_replaces_last_line s0 true 0x50 Hwf)
    as (cyc & s' & Hp & Ht & Hd & _).
  { rewrite Hv. apply Forall_replicate. reflexivity. }
  assert (Hslot : last_slot s0 0x50 = 7%nat /\ get_tag s0 0x50 = 2 /\
                  dirty s0 !! 7%nat = Some false)
    by (clear -E; vm_compute in E; injection E as <-; repeat split; reflexivity).
  destruct Hslot as (Hslot & Htag & Hd7).
  rewrite Hslot in Hp, Ht, Hd. rewrite Hd7 in Hp. rewrite Htag in Ht.
  exists s0, cyc, s'. split; [exact E|]. split; [exact Hp|].
  split; [exact Ht|exact Hd].
Defined.

(** Simulators with the same settings decode alike. *)
Lemma settings_decode s s' x :
  settings s' = settings s ->
  get_set s' x = get_set s x /\ get_tag s' x = get_tag s x /\
  set_base s' x = set_base s x /\ last_slot s' x = last_slot s x.
Proof.
  unfold settings. intros H. injection H as H1 H2 H3 H4 H5 H6 H7 H8.
  unfold last_slot, set_base, get_set, get_tag.
  rewrite H2, H6, H7, H8. repeat split; reflexivity.
Qed.

(** Two sets do not share their last line. *)
Lemma last_slot_inj s x y :
  wf s -> last_slot s x = last_slot s y -> get_set s x = get_set s y.
Proof.
  intros Hwf H.
  pose proof (set_base_range s x Hwf) as (Hx & Hx0 & _).
  pose proof (set_base_range s y Hwf) as (Hy & Hy0 & _).
  pose proof (wf_assoc s Hwf) as Ha.
  unfold last_slot in H.
  assert (E : set_base s x = set_base s y) by lia.
  rewrite Hx, Hy in E. nia.
Qed.

(** While no line is valid, a run that does not address a set leaves the
    dirty flag of its last line alone. *)
Lemma cold_run_dirty trace : forall s s' x,
  wf s -> Forall (eq false) (valid s) ->
  Forall (fun acc : access => get_set s acc.1.2 <> get_set s x) trace ->
  run s trace = Some s' ->
  wf s' /\ Forall (eq false) (valid s') /\ settings s' = settings s /\
  dirty s' !! last_slot s x = dirty s !! last_slot s x.
Proof.
  induction trace as [|[[type address] instructions] rest IH];
    intros s s' x Hwf Hcold Hother Hrun.
  - simpl in Hrun. injection Hrun as <-.
    split; [exact Hwf|]. split; [exact Hcold|]. split; reflexivity.
  - apply run_cons_inv in Hrun as (s1 & E & Hrun).
    apply run_access_inv in E as (hit & dw & cyc & s2 & Ep & ->).
    destruct (cold_probe s type address Hwf Hcold)
      as (s2' & Ep' & _ & Hd & _ & Hwf2 & Hv2 & Hset2 & _).
    rewrite Ep in Ep'. injection Ep' as _ _ _ <-.
    inversion Hother as [|acc l Hacc Hrest]; subst. simpl in Hacc.
    set (s1 := update_stats s2 instructions type hit dw (s32 cyc)) in *.
    assert (Hset1 : settings s1 = settings s) by exact Hset2.
    assert (Hwf1 : wf s1) by (apply update_stats_wf; exact Hwf2).
    assert (Hcold1 : Forall (eq false) (valid s1))
      by (change (valid s1) with (valid s2); rewrite Hv2; exact Hcold).
    assert (Hother1 : Forall (fun acc : access => get_set s1 acc.1.2 <> get_set s1 x) rest).
    { eapply Forall_impl; [|exact Hrest]. intros acc Hne. simpl in Hne.
      destruct (settings_decode s s1 acc.1.2 Hset1) as (-> & _).
      destruct (settings_decode s s1 x Hset1) as (-> & _). exact Hne. }
    destruct (IH s1 s' x Hwf1 Hcold1 Hother1 Hrun) as (Hwf' & Hcold' & Hset' & Hd').
    destruct (settings_decode s s1 x Hset1) as (_ & _ & _ & Hls).
    rewrite Hls in Hd'.
    split; [exact Hwf'|]. split; [exact Hcold'|]. split; [congruence|].
    rewrite Hd'. change (dirty s1) with (dirty s2). rewrite Hd.
    apply list_lookup_insert_ne. intros Heq.
    apply Hacc. apply (last_slot_inj s address x Hwf Heq).
Qed.

(** X8. While no line is valid, the dirty write-back that a miss reports
    is the type of the previous access to the same set, whatever accesses
    to other sets came in between: after a write it is reported, after a
    read it is not. *)
Theorem dirty_wb_previous_type s t1 a1 h1 d1 c1 s1 trace s2 t2 a2 :
  wf s -> Forall (eq false) (valid s) ->
  probe s t1 a1 = Some (h1, d1, c1, s1) ->
  Forall (fun acc : access => get_set s acc.1.2 <> get_set s a1) trace ->
  run s1 trace = Some s2 ->
  get_set s a2 = get_set s a1 ->
  exists c2 s3, probe s2 t2 a2 = Some (false, t1, c2, s3).
Proof.
  intros Hwf Hcold Hp1 Hother Hrun Hsame.
  destruct (cold_probe s t1 a1 Hwf Hcold)
    as (s1' & Ep & _ & Hd & Hslot & Hwf1 & Hv1 & Hset1 & _).
  rewrite Hp1 in Ep. injection Ep as _ _ _ <-.
  assert (Hcold1 : Forall (eq false) (valid s1)) by (rewrite Hv1; exact Hcold).
  assert (Hother1 : Forall (fun acc : access => get_set s1 acc.1.2 <> get_set s1 a1) trace).
  { eapply Forall_impl; [|exact Hother]. intros acc Hne. simpl in Hne.
    destruct (settings_decode s s1 acc.1.2 Hset1) as (-> & _).
    destruct (settings_decode s s1 a1 Hset1) as (-> & _). exact Hne. }
  destruct (cold_run_dirty trace s1 s2 a1 Hwf1 Hcold1 Hother1 Hrun)
    as (Hwf2 & Hcold2 & Hset2 & Hd2).
  destruct (cold_probe s2 t2 a2 Hwf2 Hcold2) as (s3 & Ep2 & _).
  assert (Hset : settings s2 = settings s) by congruence.
  assert (Hls : last_slot s2 a2 = last_slot s1 a1).
  { destruct (settings_decode s s2 a2 Hset) as (_ & _ & _ & ->).
    destruct (settings_decode s s1 a1 Hset1) as (_ & _ & _ & ->).
    unfold last_slot, set_base. rewrite Hsame. reflexivity. }
  rewrite Hls, Hd2 in Ep2.
  destruct (settings_decode s s1 a1 Hset1) as (_ & _ & _ & Hls1).
  rewrite Hls1, Hd in Ep2.
  rewrite list_lookup_insert_eq in Ep2 by exact Hslot.
  simpl in Ep2. eauto.
Qed.

Lemma dirty_wb_previous_type_witness :
  exists s0 s1 s2 c2 s3,
    CacheSim_new 16 2 64 30 2 = Some s0 /\
    probe s0 true 0x40 = Some (false, false, 30, s1) /\
    run s1 [(false, 0x10, 1); (true, 0x30, 1)] = Some s2 /\
    probe s2 false 0x80 = Some (false, true, c2, s3).
Proof.
  assert (E : exists s0, CacheSim_new 16 2 64 30 2 = Some s0)
    by (eexists; reflexivity).
  destruct E as [s0 E].
  destruct (CacheSim_new_wf 16 2 64 30 2) as (s' & E1 & Hwf & Hv & _).
  { unfold good_config. repeat split; try lia. vm_compute. discriminate. }
  rewrite E in E1. injection E1 as <-.
  assert (Hcold : Forall (eq false) (valid s0))
    by (rewrite Hv; apply Forall_replicate; reflexivity).
  assert (H : exists s1 s2,
            probe s0 true 0x40 = Some (false, false, 30, s1) /\
            run s1 [(false, 0x10, 1); (true, 0x30, 1)] = Some s2 /\
            get_set s0 0x10 <> get_set s0 0x40 /\
            get_set s0 0x30 <> get_set s0 0x40 /\
            get_set s0 0x80 = get_set s0 0x40).
  { clear -E. vm_compute in E. injection E as <-.
    eexists. eexists. split; [reflexivity|]. split; [vm_compute; reflexivity|].
    split; [vm_compute; discriminate|]. split; [vm_compute; discriminate|reflexivity]. }
  destruct H as (s1 & s2 & Hp1 & Hrun & Hn1 & Hn2 & Hsame).
  destruct (dirty_wb_previous_type s0 true 0x40 false false 30 s1
              [(false, 0x10, 1); (true, 0x30, 1)] s2 false 0x80
              Hwf Hcold Hp1 ltac:(repeat constructor; assumption) Hrun Hsame)
    as (c2 & s3 & Hp2).
  exists s0, s1, s2, c2, s3.
  split; [exact E|]. split; [exact Hp1|]. split; [exact Hrun|exact Hp2].
Defined.

(** ** Statistics of a run *)

Lemma s64_small z : int64 z -> s64 z = z.
Proof.
  unfold int64, s64. intros H.
  rewrite Z.mod_small by lia. lia.
Qed.

Lemma s64_range z : int64 (s64 z).
Proof.
  unfold int64, s64.
  pose proof (Z.mod_pos_bound (z + 2 ^ 63) (2 ^ 64) ltac:(lia)). lia.
Qed.

Lemma s64_add_l x y : s64 (s64 x + y) = s64 (x + y).
Proof.
  unfold s64. f_equal.
  replace (((x + 2 ^ 63) mod 2 ^ 64 - 2 ^ 63 + y + 2 ^ 63))
    with ((x + 2 ^ 63) mod 2 ^ 64 + y) by lia.
  rewrite Zplus_mod_idemp_l. f_equal. lia.
Qed.

(** One more event on a counter that has room for [n] events, [n] positive,
    is counted without leaving the range. *)
Lemma s64_count x (b : bool) n :
  0 <= x -> x + n < 2 ^ 63 -> 0 < n ->
  s64 (x + Z.b2z b) = x + Z.b2z b /\
  0 <= x + Z.b2z b /\ x + Z.b2z b + (n - 1) < 2 ^ 63.
Proof.
  intros H0 Hn Hpos.
  assert (Hb : 0 <= Z.b2z b <= 1) by (destruct b; simpl; lia).
  split; [apply s64_small; unfold int64; lia|lia].
Qed.

(** The counters after one access that is counted without leaving the
    range. *)
Lemma update_stats_fit s instructions type hit dw cyc n :
  counters_fit s n -> 0 < n ->
  let s1 := update_stats s instructions type hit dw cyc in
  writes_ s1 = writes_ s + Z.b2z type /\
  mem_accesses_ s1 = mem_accesses_ s + 1 /\
  misses_ s1 = misses_ s + Z.b2z (negb hit) /\
  dirty_wb_ s1 = dirty_wb_ s + Z.b2z dw /\
  counters_fit s1 (n - 1).
Proof.
  intros ([Hw0 Hw] & [Ha0 Ha] & [Hm0 Hm] & [Hd0 Hd]) Hn. cbv zeta.
  destruct (s64_count _ type n Hw0 Hw Hn) as (Ew & Hw1 & Hw2).
  destruct (s64_count _ true n Ha0 Ha Hn) as (Ea & Ha1 & Ha2).
  destruct (s64_count _ (negb hit) n Hm0 Hm Hn) as (Em & Hm1 & Hm2).
  destruct (s64_count _ dw n Hd0 Hd Hn) as (Ed & Hd1 & Hd2).
  change (Z.b2z true) with 1 in Ea, Ha1, Ha2.
  unfold counters_fit. simpl.
  rewrite Ew, Ea, Em, Ed.
  split; [reflexivity|]. split; [reflexivity|].
  split; [reflexivity|]. split; [reflexivity|].
  split; [split; assumption|]. split; [split; assumption|].
  split; split; assumption.
Qed.

(** [probe] leaves the counters, so what fits before it fits after it. *)
Lemma probe_counters_fit s type address r s' n :
  probe s type address = Some (r, s') ->
  counters_fit s n -> counters_fit s' n.
Proof.
  intros Hp Hfit.
  pose proof (probe_settings _ _ _ _ _ Hp) as [_ Hcnt].
  unfold counters in Hcnt. injection Hcnt as C1 C2 C3 C4 C5 C6.
  unfold counters_fit. rewrite C1, C2, C3, C4. exact Hfit.
Qed.

(** X9. What a run counts while the counters stay within 64 bits: one
    access per record and one write per write record; the instructions of
    every record, on 64 bits; at most one miss per record, and at most one
    dirty write-back per miss. *)
Theorem run_counts trace : forall s s',
  counters_fit s (Z.of_nat (length trace)) ->
  int64 (instructions_ s) ->
  run s trace = Some s' ->
  mem_accesses_ s' = mem_accesses_ s + Z.of_nat (length trace) /\
  writes_ s' = writes_ s + trace_writes trace /\
  instructions_ s' = s64 (instructions_ s + trace_instructions trace) /\
  0 <= dirty_wb_ s' - dirty_wb_ s <= misses_ s' - misses_ s /\
  misses_ s' - misses_ s <= Z.of_nat (length trace).
Proof.
  induction trace as [|[[type address] instructions] rest IH];
    intros s s' Hfit Hins Hrun.
  - simpl in Hrun. injection Hrun as <-.
    unfold trace_writes, trace_instructions. cbn [length foldr].
    rewrite !Z.add_0_r, (s64_small _ Hins). lia.
  - apply run_cons_inv in Hrun as (s1 & E & Hrun).
    apply run_access_inv in E as (hit & dw & cyc & s2 & Ep & ->).
    rewrite length_cons, Nat2Z.inj_succ in Hfit |- *.
    pose proof (probe_counters_fit _ _ _ _ _ _ Ep Hfit) as Hfit2.
    pose proof (probe_settings _ _ _ _ _ Ep) as [_ Hcnt].
    unfold counters in Hcnt. injection Hcnt as C1 C2 C3 C4 C5 C6.
    destruct (update_stats_fit s2 instructions type hit dw (s32 cyc) _ Hfit2)
      as (Ew & Ea & Em & Ed & Hfit1);
      [lia|].
    replace (Z.succ (Z.of_nat (length rest)) - 1)
      with (Z.of_nat (length rest)) in Hfit1 by lia.
    destruct (IH _ _ Hfit1 (s64_range _) Hrun) as (Ha & Hw & Hi & Hd & Hm).
    rewrite Ea in Ha. rewrite Ew in Hw. rewrite Em in Hd, Hm. rewrite Ed in Hd.
    rewrite C1 in Hw. rewrite C2 in Ha. rewrite C3 in Hd, Hm. rewrite C4 in Hd.
    assert (Hi' : instructions_ s' =
                  s64 (instructions_ s + instructions + trace_instructions rest)).
    { rewrite Hi. simpl. rewrite s64_add_l, C5. reflexivity. }
    assert (Hdm : Z.b2z dw <= Z.b2z (negb hit)).
    { destruct dw; [|destruct hit; simpl; lia].
      rewrite (probe_dirty_wb_miss _ _ _ _ _ _ _ Ep eq_refl). simpl. lia. }
    assert (0 <= Z.b2z dw) by (destruct dw; simpl; lia).
    assert (Z.b2z (negb hit) <= 1) by (destruct hit; simpl; lia).
    split; [lia|].
    split; [unfold trace_writes in *; cbn [foldr fst snd]; lia|].
    split; [rewrite Hi'; unfold trace_instructions; cbn [foldr fst snd];
            f_equal; lia|].
    lia.
Qed.

Lemma run_counts_witness :
  exists s,
    run two_way_full [(true, 0x50, 3); (false, 0x70, 2); (false, 0x50, 1)] = Some s /\
    mem_accesses_ s = 3 /\ writes_ s = 1 /\ instructions_ s = 6.
Proof.
  assert (H : exists s,
            run two_way_full [(true, 0x50, 3); (false, 0x70, 2); (false, 0x50, 1)]
            = Some s) by (eexists; vm_compute; reflexivity).
  destruct H as [s H]. exists s. split; [exact H|].
  assert (Hfit : counters_fit two_way_full
                   (Z.of_nat (length [(true, 0x50, 3); (false, 0x70, 2);
                                      (false, 0x50, 1)])))
    by (unfold counters_fit; simpl; lia).
  assert (Hins : int64 (instructions_ two_way_full))
    by (unfold int64; simpl; lia).
  destruct (run_counts _ _ _ Hfit Hins H) as (Ha & Hw & Hi & _).
  split; [exact Ha|]. split; [exact Hw|exact Hi].
Defined.

Lemma run_accesses trace : forall s s',
  counters_fit s (Z.of_nat (length trace)) ->
  run s trace = Some s' ->
  mem_accesses_ s' = mem_accesses_ s + Z.of_nat (length trace).
Proof.
  induction trace as [|[[type address] instructions] rest IH]; intros s s' Hfit Hrun.
  - simpl in Hrun. injection Hrun as <-. simpl. lia.
  - apply run_cons_inv in Hrun as (s1 & E & Hrun).
    apply run_access_inv in E as (hit & dw & cyc & s2 & Ep & ->).
    rewrite length_cons, Nat2Z.inj_succ in Hfit |- *.
    pose proof (probe_counters_fit _ _ _ _ _ _ Ep Hfit) as Hfit2.
    pose proof (probe_settings _ _ _ _ _ Ep) as [_ Hcnt].
    unfold counters in Hcnt. injection Hcnt as _ C2 _ _ _ _.
    destruct (update_stats_fit s2 instructions type hit dw (s32 cyc) _ Hfit2)
      as (_ & Ea & _ & _ & Hfit1);
      [lia|].
    replace (Z.succ (Z.of_nat (length rest)) - 1)
      with (Z.of_nat (length rest)) in Hfit1 by lia.
    rewrite (IH _ _ Hfit1 Hrun), Ea, C2. lia.
Qed.

(** A run on a cache without valid line counts every access as a miss. *)
Lemma cold_run_misses trace : forall s s',
  counters_fit s (Z.of_nat (length trace)) ->
  Forall (eq false) (valid s) ->
  run s trace = Some s' ->
  misses_ s' = misses_ s + Z.of_nat (length trace).
Proof.
  induction trace as [|[[type address] instructions] rest IH];
    intros s s' Hfit Hcold Hrun.
  - simpl in Hrun. injection Hrun as <-. simpl. lia.
  - apply run_cons_inv in Hrun as (s1 & E & Hrun).
    apply run_access_inv in E as (hit & dw & cyc & s2 & Ep & ->).
    pose proof (probe_invalid_miss _ _ _ _ _ _ _ Hcold Ep) as ->.
    pose proof (probe_valid _ _ _ _ _ Ep) as Hv.
    rewrite length_cons, Nat2Z.inj_succ in Hfit |- *.
    pose proof (probe_counters_fit _ _ _ _ _ _ Ep Hfit) as Hfit2.
    pose proof (probe_settings _ _ _ _ _ Ep) as [_ Hcnt].
    unfold counters in Hcnt. injection Hcnt as _ _ C3 _ _ _.
    destruct (update_stats_fit s2 instructions type false dw (s32 cyc) _ Hfit2)
      as (_ & _ & Em & _ & Hfit1);
      [lia|].
    replace (Z.succ (Z.of_nat (length rest)) - 1)
      with (Z.of_nat (length rest)) in Hfit1 by lia.
    assert (Hcold1 : Forall (eq false)
              (valid (update_stats s2 instructions type false dw (s32 cyc))))
      by (simpl; rewrite Hv; exact Hcold).
    rewrite (IH _ _ Hfit1 Hcold1 Hrun), Em, C3.
    simpl. lia.
Qed.

(** X10. From construction on, every access of a run of fewer than 2^63
    records is counted as a miss: after the run the miss count is the
    access count, the number of records of the trace, and the report shows
    no hit. *)
Theorem run_counts_only_misses bs a c mp wbp s0 trace s :
  Z.of_nat (length trace) < 2 ^ 63 ->
  CacheSim_new bs a c mp wbp = Some s0 ->
  run s0 trace = Some s ->
  mem_accesses_ s = Z.of_nat (length trace) /\
  misses_ s = Z.of_nat (length trace) /\
  r_misses (dump_stats s) = r_total_accesses (dump_stats s) /\
  r_hits (dump_stats s) = 0.
Proof.
  intros Hlen Hnew Hrun.
  assert (H0 : Forall (eq false) (valid s0) /\
               counters s0 = (0, 0, 0, 0, 0, 0)).
  { unfold CacheSim_new in Hnew.
    destruct (bs =? 0); [discriminate|].
    destruct (u32 (bs * a) =? 0); [discriminate|].
    injection Hnew as <-. simpl.
    split; [apply Forall_replicate; reflexivity|reflexivity]. }
  destruct H0 as (Hcold & Hcnt).
  unfold counters in Hcnt. injection Hcnt as C1 C2 C3 C4 C5 C6.
  assert (Hfit : counters_fit s0 (Z.of_nat (length trace)))
    by (unfold counters_fit; rewrite C1, C2, C3, C4; lia).
  pose proof (cold_run_misses trace s0 s Hfit Hcold Hrun) as Hm.
  pose proof (run_accesses trace s0 s Hfit Hrun) as Ha.
  simpl. lia.
Qed.

Lemma run_counts_only_misses_witness :
  exists s0 s,
    CacheSim_new 16 1 16384 30 2 = Some s0 /\
    run s0 [(false, 0, 1); (false, 0, 1); (true, 4, 1); (false, 8, 1)] = Some s /\
    misses_ s = 4 /\ r_hits (dump_stats s) = 0.
Proof.
  assert (H : exists s0 s,
            CacheSim_new 16 1 16384 30 2 = Some s0 /\
            run s0 [(false, 0, 1); (false, 0, 1); (true, 4, 1); (false, 8, 1)] = Some s).
  { eexists. eexists. split; [reflexivity|]. vm_compute. reflexivity. }
  destruct H as (s0 & s & Hnew & Hrun).
  exists s0, s. split; [exact Hnew|]. split; [exact Hrun|].
  destruct (run_counts_only_misses 16 1 16384 30 2 s0
              [(false, 0, 1); (false, 0, 1); (true, 4, 1); (false, 8, 1)] s
              ltac:(simpl; lia) Hnew Hrun) as (_ & Hm & _ & Hh).
  split; [exact Hm|exact Hh].
Defined.

(** X11. The cycle count is the cost of the misses and write-backs counted:
    for penalties that together stay below 2^31, and while the counters
    stay within 64 bits, a run adds to the cycles the miss penalty for
    every miss it counts and the dirty write-back penalty for every dirty
    write-back it counts, and nothing else. *)
Theorem run_cycles trace : forall s s',
  0 <= miss_penalty s -> 0 <= dirty_wb_penalty s ->
  miss_penalty s + dirty_wb_penalty s < 2 ^ 31 ->
  counters_fit s (Z.of_nat (length trace)) ->
  cycles_fit s (Z.of_nat (length trace)) ->
  run s trace = Some s' ->
  cycles_ s' - cycles_ s =
  miss_penalty s * (misses_ s' - misses_ s) +
  dirty_wb_penalty s * (dirty_wb_ s' - dirty_wb_ s).
Proof.
  induction trace as [|[[type address] instructions] rest IH];
    intros s s' Hm Hd Hsum Hfit Hcf Hrun.
  - simpl in Hrun. injection Hrun as <-. lia.
  - apply run_cons_inv in Hrun as (s1 & E & Hrun).
    apply run_access_inv in E as (hit & dw & cyc & s2 & Ep & ->).
    pose proof (probe_counters_fit _ _ _ _ _ _ Ep Hfit) as Hfit2.
    pose proof (probe_settings _ _ _ _ _ Ep) as [Hset Hcnt].
    unfold counters in Hcnt. injection Hcnt as _ _ C3 C4 _ C6.
    unfold settings in Hset. injection Hset as _ _ _ S4 S5 _ _ _.
    pose proof (probe_cycles_inv _ _ _ _ _ _ _ Ep) as Hc.
    rewrite access_cycles_sum in Hc.
    assert (Hcyc : cyc = (if hit then 0 else miss_penalty s) +
                         (if dw then dirty_wb_penalty s else 0)).
    { rewrite Hc. apply s32_small. destruct hit, dw; lia. }
    assert (Hs32 : s32 cyc = cyc)
      by (apply s32_small; rewrite Hcyc; destruct hit, dw; lia).
    rewrite Hs32 in Hrun.
    assert (Hbound : 0 <= cyc <= miss_penalty s + dirty_wb_penalty s)
      by (rewrite Hcyc; destruct hit, dw; lia).
    rewrite length_cons, Nat2Z.inj_succ in Hfit2, Hcf.
    unfold Z.succ in Hfit2, Hcf.
    set (n := Z.of_nat (length rest)) in *.
    assert (Hn0 : 0 <= n) by (unfold n; lia).
    destruct Hcf as [Hc0 Hc1].
    destruct (update_stats_fit s2 instructions type hit dw cyc _ Hfit2)
      as (_ & _ & Em & Ed & Hfit1); [lia|].
    replace (n + 1 - 1) with n in Hfit1 by lia.
    assert (Ec : cycles_ (update_stats s2 instructions type hit dw cyc)
                 = cycles_ s + cyc).
    { simpl. rewrite C6. apply s64_small. unfold int64. nia. }
    assert (Hcf1 : cycles_fit (update_stats s2 instructions type hit dw cyc) n).
    { unfold cycles_fit. rewrite Ec. simpl. rewrite S4, S5. nia. }
    specialize (IH (update_stats s2 instructions type hit dw cyc) s').
    rewrite Em, Ed, Ec in IH. simpl in IH. rewrite S4, S5, C3, C4 in IH.
    specialize (IH Hm Hd Hsum Hfit1 Hcf1 Hrun).
    rewrite Hcyc in IH. destruct hit, dw; simpl in IH; lia.
Qed.

Lemma run_cycles_witness :
  exists s0 s,
    CacheSim_new 16 1 16384 30 2 = Some s0 /\
    run s0 [(true, 0, 1); (false, 0, 1); (false, 0x10, 1)] = Some s /\
    cycles_ s = 30 * misses_ s + 2 * dirty_wb_ s.
Proof.
  assert (H : exists s0 s,
            CacheSim_new 16 1 16384 30 2 = Some s0 /\
            run s0 [(true, 0, 1); (false, 0, 1); (false, 0x10, 1)] = Some s /\
            miss_penalty s0 = 30 /\ dirty_wb_penalty s0 = 2 /\
            counters s0 = (0, 0, 0, 0, 0, 0)).
  { eexists. eexists. split; [reflexivity|]. split; [vm_compute; reflexivity|].
    repeat split; reflexivity. }
  destruct H as (s0 & s & Hnew & Hrun & Hmp & Hwbp & Hcnt).
  unfold counters in Hcnt. injection Hcnt as C1 C2 C3 C4 C5 C6.
  exists s0, s. split; [exact Hnew|]. split; [exact Hrun|].
  assert (Hfit : counters_fit s0
                   (Z.of_nat (length [(true, 0, 1); (false, 0, 1); (false, 0x10, 1)])))
    by (unfold counters_fit; rewrite C1, C2, C3, C4; simpl; lia).
  assert (Hcf : cycles_fit s0
                  (Z.of_nat (length [(true, 0, 1); (false, 0, 1); (false, 0x10, 1)])))
    by (unfold cycles_fit; rewrite C6, Hmp, Hwbp; simpl; lia).
  pose proof (run_cycles _ s0 s ltac:(lia) ltac:(lia) ltac:(lia) Hfit Hcf Hrun) as H.
  rewrite Hmp, Hwbp, C6, C3, C4 in H. lia.
Defined.

(** ** Ranks never develop *)

(** The last line of a set lies in the set of every address of that set
    and outside the set of every other address. *)
Lemma last_slot_position s x y :
  wf s ->
  let b := Z.to_nat (set_base s y) in
  let n := Z.to_nat (associativity s) in
  (get_set s x = get_set s y -> last_slot s x = (b + (n - 1))%nat) /\
  (get_set s x <> get_set s y -> (last_slot s x < b \/ b + n <= last_slot s x)%nat).
Proof.
  intros Hwf. cbv zeta.
  pose proof (set_base_range s x Hwf) as (Hx & Hx0 & _).
  pose proof (set_base_range s y Hwf) as (Hy & Hy0 & _).
  pose proof (wf_assoc s Hwf) as Ha.
  unfold last_slot. split.
  - intros E. rewrite Hx, Hy, E. reflexivity.
  - intros Hne. rewrite Hx, Hy.
    pose proof (get_set_range s x (wf_mask s Hwf)) as Hgx.
    pose proof (get_set_range s y (wf_mask s Hwf)) as Hgy.
    destruct (Z.lt_ge_cases (get_set s x) (get_set s y)) as [Hlt|Hge].
    + left. nia.
    + right. nia.
Qed.

(** With the replaced line at priority 0, the update of a set whose
    priorities are 0 or 1 leaves priorities that are 0 or 1. *)
Lemma update_priority_flat a (n : nat) ps :
  1 <= a < 2 ^ 31 -> length ps = S n -> ps !! n = Some 0 ->
  Forall (fun p => p = 0 \/ p = 1) ps ->
  Forall (fun p => p = 0 \/ p = 1) (update_priority a n ps) /\
  update_priority a n ps !! n = Some 0.
Proof.
  intros Ha Hlen Hold Hall.
  assert (Hn0 : update_priority a n ps !! n = Some 0).
  { unfold update_priority. apply list_lookup_insert_eq.
    rewrite transform_length. lia. }
  split; [|exact Hn0].
  apply Forall_lookup. intros j q Hq.
  assert (Hj : (j < length ps)%nat)
    by (apply lookup_lt_Some in Hq; rewrite update_priority_length in Hq; exact Hq).
  destruct (decide (j = n)) as [->|Hne].
  - rewrite Hn0 in Hq. injection Hq as <-. left. reflexivity.
  - destruct (lookup_lt_is_Some_2 ps j Hj) as [p Hp].
    unfold update_priority in Hq.
    rewrite list_lookup_insert_ne in Hq by congruence.
    rewrite (transform_lookup a n ps 0 j p Hold Hp) in Hq.
    injection Hq as <-. unfold transformed. rewrite Hold. simpl.
    replace (j <=? n)%nat with true by (symmetry; apply Nat.leb_le; lia).
    unfold bump.
    destruct (Forall_lookup_1 _ _ _ _ Hall Hp) as [->| ->]; simpl.
    + rewrite u32_small by lia.
      replace (0 <? a) with true by (symmetry; apply Z.ltb_lt; lia).
      right. reflexivity.
    + right. reflexivity.
Qed.

(** One access keeps the priorities at 0 or 1 and the last line of every
    set at 0, while no line is valid. *)
Lemma cold_probe_flat s type address r s' :
  wf s -> Forall (eq false) (valid s) ->
  Forall (fun p => p = 0 \/ p = 1) (priority s) ->
  (forall x, priority s !! last_slot s x = Some 0) ->
  probe s type address = Some (r, s') ->
  Forall (fun p => p = 0 \/ p = 1) (priority s') /\
  (forall x, priority s' !! last_slot s' x = Some 0).
Proof.
  intros Hwf Hcold Hall Hlast Hp.
  destruct (cold_probe s type address Hwf Hcold)
    as (s1 & Ep & _ & _ & _ & _ & _ & Hset & _ & Hpr).
  rewrite Hp in Ep. injection Ep as _ <-.
  pose proof (wf_spans s address Hwf) as (_ & _ & _ & _ & Hb & Hn & _).
  cbv zeta in Hb, Hn.
  pose proof (wf_assoc s Hwf) as Ha.
  pose proof (wf_priority s Hwf) as Hpl.
  set (n := Z.to_nat (associativity s)) in *.
  set (b := Z.to_nat (set_base s address)) in *.
  set (ps := take n (drop b (priority s))) in *.
  assert (Hlps : length ps = S (n - 1))
    by (unfold ps; rewrite length_take, length_drop; lia).
  pose proof (last_slot_position s address address Hwf) as [Hself _].
  cbv zeta in Hself. fold n b in Hself.
  assert (Hold : ps !! (n - 1)%nat = Some 0).
  { unfold ps. rewrite lookup_take_lt by lia. rewrite lookup_drop.
    rewrite <- (Hself eq_refl). apply Hlast. }
  destruct (update_priority_flat (associativity s) (n - 1) ps Ha Hlps Hold)
    as [Hflat Hzero]; [apply Forall_take, Forall_drop, Hall|].
  rewrite Hpr. split.
  - unfold span_store. apply Forall_app. split; [apply Forall_take, Hall|].
    apply Forall_app. split; [exact Hflat|apply Forall_drop, Hall].
  - intros x.
    destruct (settings_decode s s' x Hset) as (_ & _ & _ & ->).
    pose proof (last_slot_position s x address Hwf) as [Hin Hout].
    cbv zeta in Hin, Hout. fold n b in Hin, Hout.
    destruct (decide (get_set s x = get_set s address)) as [E|Hne].
    + rewrite (Hin E). unfold b.
      rewrite span_store_lookup_inside
        by (rewrite ?update_priority_length; fold b; lia).
      exact Hzero.
    + rewrite span_store_lookup_outside
        by (rewrite update_priority_length, Hlps; specialize (Hout Hne);
            fold b; lia).
      apply Hlast.
Qed.

(** At construction every priority is 0. *)
Lemma CacheSim_new_flat bs a c mp wbp s0 :
  CacheSim_new bs a c mp wbp = Some s0 -> wf s0 ->
  Forall (eq false) (valid s0) /\
  Forall (fun p => p = 0 \/ p = 1) (priority s0) /\
  (forall x, priority s0 !! last_slot s0 x = Some 0).
Proof.
  intros E Hwf.
  assert (Hp0 : priority s0 = replicate (length (priority s0)) 0 /\
                valid s0 = replicate (length (valid s0)) false).
  { unfold CacheSim_new in E.
    destruct (bs =? 0); [discriminate|].
    destruct (u32 (bs * a) =? 0); [discriminate|].
    injection E as <-. simpl. rewrite !length_replicate. split; reflexivity. }
  destruct Hp0 as [Hp0 Hv0].
  split; [rewrite Hv0; apply Forall_replicate; reflexivity|].
  split; [rewrite Hp0; apply Forall_replicate; left; reflexivity|].
  intros x. rewrite Hp0. apply lookup_replicate_2.
  pose proof (set_base_range s0 x Hwf) as (_ & Hb0 & Hb).
  pose proof (wf_assoc s0 Hwf) as Ha.
  rewrite (wf_priority s0 Hwf). unfold last_slot. lia.
Qed.

(** A run keeps the priorities at 0 or 1 and the last line of every set at
    0, while no line is valid. *)
Lemma cold_run_flat trace : forall s s',
  wf s -> Forall (eq false) (valid s) ->
  Forall (fun p => p = 0 \/ p = 1) (priority s) ->
  (forall x, priority s !! last_slot s x = Some 0) ->
  run s trace = Some s' ->
  Forall (fun p => p = 0 \/ p = 1) (priority s') /\
  (forall x, priority s' !! last_slot s' x = Some 0).
Proof.
  induction trace as [|[[type address] instructions] rest IH];
    intros s s' Hwf Hcold Hall Hlast Hrun.
  - simpl in Hrun. injection Hrun as <-. split; assumption.
  - apply run_cons_inv in Hrun as (s1 & E & Hrun).
    pose proof (run_access_wf _ _ _ Hwf E) as Hwf1.
    pose proof (run_access_settings _ _ _ E) as [Hset1 Hv1].
    apply run_access_inv in E as (hit & dw & cyc & s2 & Ep & ->).
    destruct (cold_probe_flat s type address _ s2 Hwf Hcold Hall Hlast Ep)
      as [Hall2 Hlast2].
    apply (IH (update_stats s2 instructions type hit dw (s32 cyc)));
      try assumption.
    rewrite Hv1. exact Hcold.
Qed.

(** X12. From construction on, recency ranks never develop: after any run
    every priority is 0 or 1 and the last line of every set, the one that
    each access replaces, has priority 0. *)
Theorem priorities_stay_flat bs a c mp wbp s0 trace s :
  good_config bs a c ->
  CacheSim_new bs a c mp wbp = Some s0 ->
  run s0 trace = Some s ->
  Forall (fun p => p = 0 \/ p = 1) (priority s) /\
  (forall x, priority s !! last_slot s x = Some 0).
Proof.
  intros Hgood Hnew Hrun.
  destruct (CacheSim_new_wf bs a c mp wbp Hgood) as (s1 & E & Hwf0 & _).
  assert (s1 = s0) by congruence. subst s1.
  destruct (CacheSim_new_flat bs a c mp wbp s0 Hnew Hwf0)
    as (Hcold0 & Hall0 & Hlast0).
  exact (cold_run_flat trace s0 s Hwf0 Hcold0 Hall0 Hlast0 Hrun).
Qed.

Lemma priorities_stay_flat_witness :
  exists s0 s,
    CacheSim_new 16 4 128 30 2 = Some s0 /\
    run s0 [(false, 0x40, 1); (true, 0x40, 2); (false, 0x10, 1); (true, 0x80, 1)]
      = Some s /\
    Forall (fun p => p = 0 \/ p = 1) (priority s).
Proof.
  assert (H : exists s0 s,
            CacheSim_new 16 4 128 30 2 = Some s0 /\
            run s0 [(false, 0x40, 1); (true, 0x40, 2); (false, 0x10, 1); (true, 0x80, 1)]
              = Some s).
  { eexists. eexists. split; [reflexivity|]. vm_compute. reflexivity. }
  destruct H as (s0 & s & Hnew & Hrun).
  exists s0, s. split; [exact Hnew|]. split; [exact Hrun|].
  assert (Hgood : good_config 16 4 128)
    by (unfold good_config; repeat split; try lia; vm_compute; discriminate).
  destruct (priorities_stay_flat 16 4 128 30 2 s0 _ s Hgood Hnew Hrun) as [H _].
  exact H.
Defined.

(** ** Repeating an access *)

(** After the update with the last line at priority 0, every other line of
    a set of priorities 0 or 1 is at 1. *)
Lemma update_priority_ones a (n : nat) ps (j : nat) :
  1 <= a < 2 ^ 31 -> length ps = S n -> ps !! n = Some 0 ->
  Forall (fun p => p = 0 \/ p = 1) ps ->
  (j < n)%nat -> update_priority a n ps !! j = Some 1.
Proof.
  intros Ha Hlen Hold Hall Hj.
  destruct (lookup_lt_is_Some_2 ps j ltac:(lia)) as [p Hp].
  unfold update_priority.
  rewrite list_lookup_insert_ne by lia.
  rewrite (transform_lookup a n ps 0 j p Hold Hp).
  f_equal. unfold transformed. rewrite Hold. simpl.
  replace (j <=? n)%nat with true by (symmetry; apply Nat.leb_le; lia).
  unfold bump.
  destruct (Forall_lookup_1 _ _ _ _ Hall Hp) as [->| ->]; simpl; [|reflexivity].
  rewrite u32_small by lia.
  replace (0 <? a) with true by (symmetry; apply Z.ltb_lt; lia).
  reflexivity.
Qed.

(** A set whose last line is at 0 and whose other lines are at 1 is a fixed
    point of the update of its last line. *)
Lemma update_priority_fixed a (n : nat) ps :
  1 <= a < 2 ^ 31 -> length ps = S n -> ps !! n = Some 0 ->
  (forall j : nat, (j < n)%nat -> ps !! j = Some 1) ->
  update_priority a n ps = ps.
Proof.
  intros Ha Hlen Hold Hones.
  assert (Hall : Forall (fun p => p = 0 \/ p = 1) ps).
  { apply Forall_lookup. intros j p Hp.
    pose proof (lookup_lt_Some _ _ _ Hp) as Hj.
    destruct (decide (j = n)) as [->|Hne].
    - left. congruence.
    - right. rewrite (Hones j ltac:(lia)) in Hp. congruence. }
  apply list_eq. intros j.
  destruct (decide (j < n)%nat) as [Hlt|Hge].
  - rewrite (update_priority_ones a n ps j Ha Hlen Hold Hall Hlt).
    symmetry. apply Hones. exact Hlt.
  - destruct (decide (j = n)) as [->|Hne].
    + rewrite Hold. unfold update_priority. apply list_lookup_insert_eq.
      rewrite transform_length. lia.
    + rewrite !(proj2 (lookup_ge_None _ _)); [reflexivity|lia|].
      rewrite update_priority_length. lia.
Qed.

(** X13. Repeating an access changes nothing in the cache: in any run from
    construction, the same access made twice in a row is a miss both times,
    the second one reports the type of the access as dirty write-back and
    leaves the tags, the dirty flags, the valid flags and the priorities as
    the first one left them. *)
Theorem repeated_access_changes_nothing bs a c mp wbp s0 trace s type address
    h1 d1 c1 s1 :
  good_config bs a c ->
  CacheSim_new bs a c mp wbp = Some s0 ->
  run s0 trace = Some s ->
  probe s type address = Some (h1, d1, c1, s1) ->
  exists c2 s2,
    probe s1 type address = Some (false, type, c2, s2) /\
    tags s2 = tags s1 /\ dirty s2 = dirty s1 /\
    valid s2 = valid s1 /\ priority s2 = priority s1.
Proof.
  intros Hgood Hnew0 Hrun Hp1.
  destruct (CacheSim_new_wf bs a c mp wbp Hgood) as (s' & E & Hwf0 & Hv0 & _).
  pose proof Hnew0 as Hnew.
  rewrite E in Hnew. injection Hnew as ->.
  assert (Hcold0 : Forall (eq false) (valid s0))
    by (rewrite Hv0; apply Forall_replicate; reflexivity).
  destruct (run_cold trace s0 Hwf0 Hcold0) as (s'' & Hrun' & Hwf & Hv).
  rewrite Hrun in Hrun'. injection Hrun' as <-.
  assert (Hcold : Forall (eq false) (valid s)) by (rewrite Hv; exact Hcold0).
  pose proof Hwf0 as Hwf0'.
  clear Hwf0 Hcold0 Hv Hv0 E.
  (* the first access *)
  destruct (cold_probe s type address Hwf Hcold)
    as (s1' & Ep1 & Ht1 & Hd1 & Hslot & Hwf1 & Hv1 & Hset1 & _ & Hpr1).
  rewrite Hp1 in Ep1. injection Ep1 as _ _ _ <-.
  assert (Hcold1 : Forall (eq false) (valid s1)) by (rewrite Hv1; exact Hcold).
  pose proof (wf_spans s address Hwf) as (_ & _ & _ & _ & Hb & Hn & _).
  cbv zeta in Hb, Hn.
  pose proof (wf_assoc s Hwf) as Ha.
  pose proof (wf_priority s Hwf) as Hpl.
  pose proof (wf_dirty s Hwf) as Hdl.
  pose proof (set_base_range s address Hwf) as (_ & Hb0 & _).
  destruct (settings_decode s s1 address Hset1) as (_ & Htag1 & Hbase1 & Hls1).
  assert (Ha1 : associativity s1 = associativity s)
    by (unfold settings in Hset1; congruence).
  (* the second access *)
  destruct (cold_probe s1 type address Hwf1 Hcold1)
    as (s2 & Ep2 & Ht2 & Hd2 & _ & _ & Hv2 & _ & _ & Hpr2).
  rewrite Hls1, Htag1, Hbase1, Ha1 in *.
  exists (access_cycles s1 false type), s2.
  assert (Hd1slot : dirty s1 !! last_slot s address = Some type)
    by (rewrite Hd1; apply list_lookup_insert_eq; exact Hslot).
  rewrite Hd1slot in Ep2. simpl in Ep2.
  split; [exact Ep2|].
  split; [rewrite Ht2, Ht1; apply list_insert_insert_eq|].
  split; [rewrite Hd2, Hd1; apply list_insert_insert_eq|].
  split; [exact Hv2|].
  rewrite Hpr2.
  set (n := Z.to_nat (associativity s)) in *.
  set (ps := take n (drop (Z.to_nat (set_base s address)) (priority s))) in *.
  set (ups := update_priority (associativity s) (n - 1) ps) in *.
  assert (Hlps : length ps = S (n - 1))
    by (unfold ps; rewrite length_take, length_drop; lia).
  assert (Hlups : length ups = n)
    by (unfold ups; rewrite update_priority_length; lia).
  assert (Hspan1 : take n (drop (Z.to_nat (set_base s address)) (priority s1)) = ups).
  { pose proof (span_store_span (priority s) ups (set_base s address) Hb0
                  ltac:(lia)) as Hsp.
    rewrite <- Hpr1 in Hsp.
    apply span_Some_inv in Hsp as (_ & _ & _ & Heq & _).
    rewrite Hlups, Nat2Z.id in Heq. symmetry. exact Heq. }
  rewrite Hspan1.
  assert (Hfix : update_priority (associativity s) (n - 1) ups = ups).
  { destruct (CacheSim_new_flat bs a c mp wbp s0 Hnew0 Hwf0')
      as (Hc0 & Hall0 & Hlast0).
    destruct (cold_run_flat trace s0 s Hwf0' Hc0 Hall0 Hlast0 Hrun)
      as [Hall Hlast].
    pose proof (last_slot_position s address address Hwf) as [Hself _].
    cbv zeta in Hself. fold n in Hself.
    assert (Hold : ps !! (n - 1)%nat = Some 0).
    { unfold ps. rewrite lookup_take_lt by lia. rewrite lookup_drop.
      rewrite <- (Hself eq_refl). apply Hlast. }
    assert (Hallps : Forall (fun p => p = 0 \/ p = 1) ps)
      by (apply Forall_take, Forall_drop, Hall).
    apply update_priority_fixed; [exact Ha|lia| |].
    - unfold ups, update_priority. apply list_lookup_insert_eq.
      rewrite transform_length. lia.
    - intros j Hj. apply update_priority_ones; assumption. }
  rewrite Hfix, <- Hspan1. apply span_store_same.
Qed.

Lemma repeated_access_changes_nothing_witness :
  exists s0 s s1 c2 s2,
    CacheSim_new 16 2 64 30 2 = Some s0 /\
    run s0 [(false, 0x10, 1); (false, 0x60, 1)] = Some s /\
    probe s true 0x40 = Some (false, false, 30, s1) /\
    probe s1 true 0x40 = Some (false, true, c2, s2) /\
    tags s2 = tags s1 /\ priority s2 = priority s1.
Proof.
  assert (H : exists s0 s s1,
            CacheSim_new 16 2 64 30 2 = Some s0 /\
            run s0 [(false, 0x10, 1); (false, 0x60, 1)] = Some s /\
            probe s true 0x40 = Some (false, false, 30, s1)).
  { eexists. eexists. eexists. split; [reflexivity|].
    split; [vm_compute; reflexivity|]. vm_compute. reflexivity. }
  destruct H as (s0 & s & s1 & Hnew & Hrun & Hp1).
  assert (Hgood : good_config 16 2 64)
    by (unfold good_config; repeat split; try lia; vm_compute; discriminate).
  destruct (repeated_access_changes_nothing 16 2 64 30 2 s0 _ s true 0x40
              false false 30 s1 Hgood Hnew Hrun Hp1)
    as (c2 & s2 & Hp2 & Ht & _ & _ & Hpr).
  exists s0, s, s1, c2, s2.
  split; [exact Hnew|]. split; [exact Hrun|]. split; [exact Hp1|].
  split; [exact Hp2|]. split; [exact Ht|exact Hpr].
Defined.

(** * The replacement order on the runs of the simulator *)







